(** * doggo-cli: the secret document and its tag-indexed access layer

    A shallow embedding of [lib/dog-tag.js]: the tag helpers
    ([slugifyTags], [getTagsFromString]), the search and single-target
    resolution steps, and the [list], [add], [delete], [update] and [init]
    operations on the Automerge document.

    JavaScript strings are sequences of UTF-16 code units; they are modelled
    as lists of code units so that the regular expression class [\s] keeps all
    of its members. *)

From Stdlib Require Import String Ascii NArith ZArith Bool List Lia.
Import ListNotations.

(** ** Strings *)

Module JsString.

Local Open Scope N_scope.

Abbreviation jsstring := (list N) (only parsing).

(** Code units of an ASCII literal of the source. *)
Definition js (s : string) : jsstring :=
  map N_of_ascii (list_ascii_of_string s).

Fixpoint eqb (a b : jsstring) : bool :=
  match a, b with
  | [], [] => true
  | x :: a', y :: b' => N.eqb x y && eqb a' b'
  | _, _ => false
  end.

(** [Array.prototype.join] on an array of strings. *)
Fixpoint join (sep : jsstring) (xs : list jsstring) : jsstring :=
  match xs with
  | [] => []
  | [x] => x
  | x :: rest => x ++ sep ++ join sep rest
  end.

(** The class [\s] of an ECMAScript regular expression (no [u] flag):
    WhiteSpace and LineTerminator code units. *)
Definition is_space (c : N) : bool :=
  (c =? 9) || (c =? 10) || (c =? 11) || (c =? 12) || (c =? 13) ||
  (c =? 32) || (c =? 160) || (c =? 5760) ||
  ((8192 <=? c) && (c <=? 8202)) ||
  (c =? 8232) || (c =? 8233) || (c =? 8239) || (c =? 8287) ||
  (c =? 12288) || (c =? 65279).

(** The class [[\s,]]. *)
Definition is_separator (c : N) : bool := is_space c || (c =? 44).

(** [str.split(/[\s,]+/g)].  The pattern never matches the empty string,
    so the empty input gives one empty piece, and every maximal run of
    separators is one split point; a run at the start (at the end) of the
    input leaves an empty first (last) piece, as in ECMAScript's
    [RegExp.prototype[@@split]].  [in_run] tells that the previous code
    unit was a separator, whose run is still being skipped. *)
Fixpoint split_separators (in_run : bool) (s : jsstring) : list jsstring :=
  match s with
  | [] => [[]]
  | c :: s' =>
      if is_separator c then
        if in_run then split_separators true s'
        else [] :: split_separators true s'
      else
        match split_separators false s' with
        | piece :: pieces => (c :: piece) :: pieces
        | [] => [[c]]
        end
  end.

End JsString.

Import JsString.

(** ** Values and objects *)

(** The values an entry's fields hold: strings, arrays of strings (the tags),
    booleans, and [undefined] for an absent field. *)
Inductive value : Type :=
| VUndefined
| VBool (b : bool)
| VStr (s : jsstring)
| VArr (xs : list jsstring).

(** [a === b].  Strings, booleans and [undefined] compare by value.  Arrays
    compare by identity, which the model does not track: two array values
    are reported different.  The program only compares [id] fields, which
    hold strings wherever it creates them. *)
Definition strict_eq (a b : value) : bool :=
  match a, b with
  | VUndefined, VUndefined => true
  | VBool x, VBool y => Bool.eqb x y
  | VStr x, VStr y => JsString.eqb x y
  | _, _ => false
  end.

(** String conversion inside a template literal. *)
Definition to_string (v : value) : jsstring :=
  match v with
  | VUndefined => js "undefined"
  | VBool true => js "true"
  | VBool false => js "false"
  | VStr s => s
  | VArr xs => join (js ",") xs
  end.

(** A plain object: its own properties in insertion order, keys unique. *)
Definition object := list (jsstring * value).

Fixpoint obj_lookup (o : object) (key : jsstring) : option value :=
  match o with
  | [] => None
  | (k, v) :: o' => if JsString.eqb k key then Some v else obj_lookup o' key
  end.

(** Property read [o.key]. *)
Definition prop (o : object) (key : string) : value :=
  match obj_lookup o (js key) with
  | Some v => v
  | None => VUndefined
  end.

(** Property write [o[key] = v]: in place for an existing key, appended
    otherwise. *)
Fixpoint obj_set (o : object) (key : jsstring) (v : value) : object :=
  match o with
  | [] => [(key, v)]
  | (k, w) :: o' =>
      if JsString.eqb k key then (k, v) :: o' else (k, w) :: obj_set o' key v
  end.

(** [Object.assign(target, source)]. *)
Definition Object_assign1 (target source : object) : object :=
  fold_left (fun t kv => obj_set t (fst kv) (snd kv)) source target.

(** [Object.assign(target, ...sources)]. *)
Definition Object_assign (target : object) (sources : list object) : object :=
  fold_left Object_assign1 sources target.

Definition Object_entries (o : object) : list (jsstring * value) := o.

(** ** Arrays *)

Fixpoint findIndex_from {A} (p : A -> bool) (arr : list A) (i : Z) : Z :=
  match arr with
  | [] => (-1)%Z
  | x :: rest => if p x then i else findIndex_from p rest (i + 1)%Z
  end.

(** [arr.findIndex(p)]: the first index whose element satisfies [p], or -1. *)
Definition findIndex {A} (p : A -> bool) (arr : list A) : Z :=
  findIndex_from p arr 0%Z.

(** [arr.splice(start, deleteCount, ...items)] of an array: a negative
    [start] counts from the end, and both the start and the number of deleted
    elements are clamped to the array.  The list of a draft agrees with it
    from a start of zero on and refuses a negative one with a [RangeError];
    what is proved below about the place of an element is proved for a start
    that [findIndex] has found. *)
Definition splice {A} (arr : list A) (start : Z) (deleteCount : nat)
    (items : list A) : list A :=
  let len := Z.of_nat (length arr) in
  let actualStart :=
    Z.to_nat (if (start <? 0)%Z then Z.max (len + start) 0 else Z.min start len) in
  firstn actualStart arr ++ items ++ skipn (actualStart + deleteCount) arr.

(** [arr.push(x)]. *)
Definition push {A} (arr : list A) (x : A) : list A := arr ++ [x].

(** ** Errors and results *)

(** What a [throw] carries, or what sits in the [error] field of a result:
    a bare string, or an error object.  [system] is Bounce's classification
    ([Bounce.isSystem]): [TypeError], [ReferenceError] and the like. *)
Inductive exn : Type :=
| ErrValue (s : jsstring)
| ErrObject (system : bool) (message : jsstring).

Definition Bounce_isSystem (e : exn) : bool :=
  match e with
  | ErrValue _ => false
  | ErrObject system _ => system
  end.

(** Calling [.join] on something that is not an array. *)
Definition TypeError_join : exn :=
  ErrObject true (js "tags.join is not a function").

(** The [{ output }] or [{ error }] objects the operations return. *)
Inductive result (A : Type) : Type :=
| Output (output : A)
| Error (error : exn).
Arguments Output {A} output.
Arguments Error {A} error.

(** ** The tag helpers *)

(** [internals.slugifyTags = (tags) => tags.join(', ')]. *)
Definition slugifyTags (tags : value) : exn + jsstring :=
  match tags with
  | VArr xs => inr (join (js ", ") xs)
  | _ => inl TypeError_join
  end.

(** [internals.getTagsFromString = (str) => str.split(/[\s,]+/g)]. *)
Definition getTagsFromString (str : jsstring) : list jsstring :=
  split_separators false str.

(** A tag that holds no separator, i.e. no whitespace and no comma. *)
Definition separator_free (tag : jsstring) : bool :=
  forallb (fun c => negb (is_separator c)) tag.

(** The input starts (ends) with a separator; false for the empty input. *)
Definition starts_with_separator (str : jsstring) : bool :=
  match str with
  | c :: _ => is_separator c
  | [] => false
  end.

Definition ends_with_separator (str : jsstring) : bool :=
  starts_with_separator (rev str).

(** ** The document *)

Module Doc.

Record state : Type := {
  isDoggo : bool;
  id : jsstring;
  version : Z;
  secrets : list object;
  doggoVersion : jsstring;
  updatedAt : Z
}.

Definition set_isDoggo (d : state) (x : bool) : state :=
  {| isDoggo := x; id := id d; version := version d; secrets := secrets d;
     doggoVersion := doggoVersion d; updatedAt := updatedAt d |}.
Definition set_id (d : state) (x : jsstring) : state :=
  {| isDoggo := isDoggo d; id := x; version := version d; secrets := secrets d;
     doggoVersion := doggoVersion d; updatedAt := updatedAt d |}.
Definition set_version (d : state) (x : Z) : state :=
  {| isDoggo := isDoggo d; id := id d; version := x; secrets := secrets d;
     doggoVersion := doggoVersion d; updatedAt := updatedAt d |}.
Definition set_secrets (d : state) (x : list object) : state :=
  {| isDoggo := isDoggo d; id := id d; version := version d; secrets := x;
     doggoVersion := doggoVersion d; updatedAt := updatedAt d |}.
Definition set_doggoVersion (d : state) (x : jsstring) : state :=
  {| isDoggo := isDoggo d; id := id d; version := version d; secrets := secrets d;
     doggoVersion := x; updatedAt := updatedAt d |}.
Definition set_updatedAt (d : state) (x : Z) : state :=
  {| isDoggo := isDoggo d; id := id d; version := version d; secrets := secrets d;
     doggoVersion := doggoVersion d; updatedAt := x |}.

(** The document before its fields are written: every field absent. *)
Definition blank : state :=
  {| isDoggo := false; id := []; version := 0; secrets := [];
     doggoVersion := []; updatedAt := 0 |}.

End Doc.

(** The replication engine, as far as the program uses it: a document is a
    snapshot with the list of the changes that led to it; [change] applies a
    mutator to a draft of the snapshot and records one more change.  A draft
    takes new values only: it refuses, with [TypeError_owned], an object that
    holds an array which belongs to a document already, so that [change]
    throws and no change is recorded. *)
Module Automerge.

Record doc : Type := {
  state : Doc.state;
  history : list jsstring
}.

Definition init : doc := {| state := Doc.blank; history := [] |}.

Definition change (d : doc) (message : jsstring)
    (mutator : Doc.state -> Doc.state) : doc :=
  {| state := mutator (state d); history := history d ++ [message] |}.

Definition getHistory (d : doc) : list jsstring := history d.

Definition TypeError_owned : exn :=
  ErrObject true
    (js "Cannot assign an object that already belongs to an Automerge document").

End Automerge.

(** ** Interaction with the outside *)

(** The calls that leave the program: decryption, parsing a saved document,
    the prompts, the identifier generator, the clock, and the engine's
    [change], which is computed by the model and kept among the events so
    that a run shows every mutation it performs. *)
Inductive event : Type -> Type :=
| Helpers_getDecrypted (strOrPath : option jsstring) : event jsstring
| Automerge_load (serialized : jsstring) : event Automerge.doc
| Helpers_prompt (message : jsstring) : event jsstring
| Enquirer_confirm (message : jsstring) : event bool
| Enquirer_select (message : jsstring) (choices : list jsstring) : event jsstring
| Enquirer_form (message : jsstring) (choices : list (jsstring * value)) : event object
| Uuid_v4 : event jsstring
| Date_now : event Z
| Automerge_change (d : Automerge.doc) (message : jsstring)
    (mutator : Doc.state -> Doc.state) : event Automerge.doc.

(** An asynchronous function body: it returns, throws, or performs a call
    and goes on with what the call gives back, a value or an exception. *)
Inductive prog (A : Type) : Type :=
| Ret (a : A)
| Throw (e : exn)
| Vis {X : Type} (ev : event X) (k : exn + X -> prog A).
Arguments Ret {A} a.
Arguments Throw {A} e.
Arguments Vis {A X} ev k.

Fixpoint bind {A B} (m : prog A) (f : A -> prog B) : prog B :=
  match m with
  | Ret a => f a
  | Throw e => Throw e
  | Vis ev k => Vis ev (fun r => bind (k r) f)
  end.

Notation "x <- m ;; f" := (bind m (fun x => f))
  (at level 61, m at next level, right associativity).
Notation "m ;;; f" := (bind m (fun _ => f))
  (at level 61, right associativity).

(** [try { body } catch (error) { handler }]. *)
Fixpoint try_catch {A} (body : prog A) (handler : exn -> prog A) : prog A :=
  match body with
  | Ret a => Ret a
  | Throw e => handler e
  | Vis ev k => Vis ev (fun r => try_catch (k r) handler)
  end.

(** [await call]: the value, or the exception rethrown. *)
Definition trigger {X} (ev : event X) : prog X :=
  Vis ev (fun r => match r with inl e => Throw e | inr x => Ret x end).

(** A synchronous computation that may throw. *)
Definition lift {A} (r : exn + A) : prog A :=
  match r with
  | inl e => Throw e
  | inr a => Ret a
  end.

(** The handler every operation ends with:
    [catch (error) { Bounce.rethrow(error, 'system'); return { error }; }]. *)
Definition catch_expected {A} (body : prog (result A)) : prog (result A) :=
  try_catch body
    (fun error => if Bounce_isSystem error then Throw error else Ret (Error error)).

(** *** Runs *)

(** What the outside gives back to one call. *)
Inductive answer : Type :=
| AThrow (e : exn)
| AStr (s : jsstring)
| ABool (b : bool)
| AObj (o : object)
| ADoc (d : Automerge.doc)
| ANum (n : Z).

(** What a run shows of one call; for the parsing of a saved document, also
    what it gave. *)
Inductive observed : Type :=
| ObsGetDecrypted (strOrPath : option jsstring)
| ObsLoad (serialized : jsstring) (loaded : exn + Automerge.doc)
| ObsPrompt (message : jsstring)
| ObsConfirm (message : jsstring)
| ObsSelect (message : jsstring) (choices : list jsstring)
| ObsForm (message : jsstring) (choices : list (jsstring * value))
| ObsUuid
| ObsNow
| ObsChange (before : Automerge.doc) (message : jsstring) (after : Automerge.doc).

Definition observe {X} (ev : event X) : exn + X -> observed :=
  match ev in event X return exn + X -> observed with
  | Helpers_getDecrypted a => fun _ => ObsGetDecrypted a
  | Automerge_load s => fun loaded => ObsLoad s loaded
  | Helpers_prompt m => fun _ => ObsPrompt m
  | Enquirer_confirm m => fun _ => ObsConfirm m
  | Enquirer_select m c => fun _ => ObsSelect m c
  | Enquirer_form m c => fun _ => ObsForm m c
  | Uuid_v4 => fun _ => ObsUuid
  | Date_now => fun _ => ObsNow
  | Automerge_change d m f => fun _ => ObsChange d m (Automerge.change d m f)
  end.

(** The reply to a call, taken from the head of the script; [None] when the
    script is exhausted or its head is not a reply to this call.  [change]
    takes nothing from the script. *)
Definition respond {X} (ev : event X) (script : list answer)
    : option ((exn + X) * list answer) :=
  match ev in event X return option ((exn + X) * list answer) with
  | Automerge_change d m f => Some (inr (Automerge.change d m f), script)
  | Helpers_getDecrypted _ | Helpers_prompt _ | Enquirer_select _ _ =>
      match script with
      | AStr s :: rest => Some (inr s, rest)
      | AThrow e :: rest => Some (inl e, rest)
      | _ => None
      end
  | Uuid_v4 =>
      match script with
      | AStr s :: rest => Some (inr s, rest)
      | _ => None
      end
  | Automerge_load _ =>
      match script with
      | ADoc d :: rest => Some (inr d, rest)
      | AThrow e :: rest => Some (inl e, rest)
      | _ => None
      end
  | Enquirer_confirm _ =>
      match script with
      | ABool b :: rest => Some (inr b, rest)
      | AThrow e :: rest => Some (inl e, rest)
      | _ => None
      end
  | Enquirer_form _ _ =>
      match script with
      | AObj o :: rest => Some (inr o, rest)
      | AThrow e :: rest => Some (inl e, rest)
      | _ => None
      end
  | Date_now =>
      match script with
      | ANum n :: rest => Some (inr n, rest)
      | _ => None
      end
  end.

Inductive outcome (A : Type) : Type :=
| Returned (a : A)
| Thrown (e : exn).
Arguments Returned {A} a.
Arguments Thrown {A} e.

(** A run against a script of replies: the outcome, the calls made in order,
    and the replies left over. *)
Fixpoint run {A} (p : prog A) (script : list answer)
    : option (outcome A * list observed * list answer) :=
  match p with
  | Ret a => Some (Returned a, [], script)
  | Throw e => Some (Thrown e, [], script)
  | Vis ev k =>
      match respond ev script with
      | None => None
      | Some (r, rest) =>
          match run (k r) rest with
          | None => None
          | Some (o, trace, rest') => Some (o, observe ev r :: trace, rest')
          end
      end
  end.

Definition is_change (o : observed) : bool :=
  match o with
  | ObsChange _ _ _ => true
  | _ => false
  end.

(** The number of mutations a run performed. *)
Definition changes (trace : list observed) : nat :=
  List.length (filter is_change trace).

(** ** Pure code that may throw *)

Fixpoint map_throwing {A B} (f : A -> exn + B) (l : list A) : exn + list B :=
  match l with
  | [] => inr []
  | x :: rest =>
      match f x with
      | inl e => inl e
      | inr y =>
          match map_throwing f rest with
          | inl e => inl e
          | inr ys => inr (y :: ys)
          end
      end
  end.

(** [arr.find(p)] for a predicate that may throw: the elements are tried in
    order, up to the first one that satisfies [p]. *)
Fixpoint find_throwing {A} (p : A -> exn + bool) (l : list A) : exn + option A :=
  match l with
  | [] => inr None
  | x :: rest =>
      match p x with
      | inl e => inl e
      | inr true => inr (Some x)
      | inr false => find_throwing p rest
      end
  end.

(** ** lib/dog-tag.js *)

(** The options handed to Fuse.  Every caller passes [{ keys: ['tags'] }];
    the [id] option, which makes Fuse answer identifiers instead of items,
    is set nowhere and is left out, with the branch of [search] that
    serves it. *)
Record options : Type := { keys : list jsstring }.

(** What the module requires: the approximate matcher, which ranks the items
    of a list against a query, and the version string of the doggo
    package. *)
Class Externals : Type := {
  Fuse_search : list object -> options -> jsstring -> list object;
  DoggoPackage_version : jsstring
}.

Definition dquote : jsstring := [34%N].

(** A command-line argument, [undefined] when it was not given. *)
Definition truthy (arg : option jsstring) : bool :=
  match arg with
  | Some (_ :: _) => true
  | _ => false
  end.

(** [arg || '']. *)
Definition or_empty (arg : option jsstring) : jsstring :=
  match arg with
  | Some s => s
  | None => []
  end.

Module Helpers.

(** Modelled from the spec: [Helpers.withErrHandling] of [lib/helpers.js],
    which is not among the sources.  Every operation answers either
    [{ output }] or [{ error }] (section 6), and an expected error travels
    as an ordinary result until it is raised to the enclosing handler
    (sections 7 and 9).  The callers use what the helper gives back as the
    payload itself ([instance.secrets], [results[0]]): it awaits the call
    and yields [output], or throws [error]. *)
Definition withErrHandling {A} (call : prog (result A)) : prog A :=
  r <- call ;;
  match r with
  | Output a => Ret a
  | Error e => Throw e
  end.

(** Modelled from the spec: [Helpers.assert] of [lib/helpers.js], which is
    not among the sources.  Section 7, validation error: a required
    argument is missing; it is reported as [{ error }], with no side
    effect, so the helper throws an error that is not a system error,
    carrying the given message. *)
Definition assert (args : list (option jsstring)) (message : jsstring)
    : prog unit :=
  if forallb truthy args then Ret tt else Throw (ErrObject false message).

(** [Helpers.prompt]: a free text prompt. *)
Definition prompt (message : jsstring) : prog jsstring :=
  trigger (Helpers_prompt message).

(** [Helpers.getDecrypted]. *)
Definition getDecrypted (strOrPath : option jsstring) : prog jsstring :=
  trigger (Helpers_getDecrypted strOrPath).

End Helpers.

Module DogTag.
Section WithExternals.

Context {ext : Externals}.

Definition tags_options : options := {| keys := [js "tags"] |}.

(** [internals.getInstance]. *)
Definition getInstance (strOrPath : option jsstring)
    : prog (result Automerge.doc) :=
  catch_expected (
    decrypted <- Helpers.getDecrypted strOrPath ;;
    instance <- trigger (Automerge_load decrypted) ;;
    Ret (Output instance)).

(** [parseInt(item)] of an object: its string form has no leading digit,
    the answer is [NaN]. *)
Definition parseInt (item : object) : option Z := None.

Definition isNaN (n : option Z) : bool :=
  match n with
  | Some _ => false
  | None => true
  end.

(** [internals.search].  Fuse answers the matching items, best first, and
    is taken not to throw, so the handler of [search] is never entered.  The
    test for an answer made of numbers holds for a list of objects only
    when the answer is empty, and the mapping that follows it then yields
    the empty array. *)
Definition search (list : list object) (query : jsstring) (opts : options)
    : result (Datatypes.list object) :=
  let res := Fuse_search list opts query in
  let res :=
    if Nat.eqb
         (List.length (filter (fun item => negb (isNaN item)) (map parseInt res)))
         (List.length res)
    then []
    else res in
  Output res.

(** [(item) => chosenResult === slugifyTags(item.tags)]. *)
Definition renders_as (chosenResult : jsstring) (item : object) : exn + bool :=
  match slugifyTags (prop item "tags") with
  | inl e => inl e
  | inr s => inr (JsString.eqb chosenResult s)
  end.

(** [internals.getSingleFromList]; [undefined] is [None]. *)
Definition getSingleFromList (list : list object) (query : jsstring)
    (opts : options) : prog (result (option object)) :=
  catch_expected (
    results <- Helpers.withErrHandling (Ret (search list query opts)) ;;
    let result := hd_error results in
    if Nat.ltb 1 (List.length results) then
      joinedTags <- lift (map_throwing (fun r => slugifyTags (prop r "tags")) results) ;;
      chosenResult <- trigger (Enquirer_select (js "Choose from the list") joinedTags) ;;
      result <- lift (find_throwing (renders_as chosenResult) list) ;;
      Ret (Output result)
    else
      Ret (Output result)).

(** The change messages and the texts of the two confirmations. *)
Definition add_message (slug : jsstring) : jsstring :=
  js "Add '" ++ slug ++ js "'".
Definition delete_message (slug : jsstring) : jsstring :=
  js "Delete '" ++ slug ++ js "'".
Definition update_message (slug : jsstring) : jsstring :=
  js "Update '" ++ slug ++ js "'".
Definition areYouSure_message (slug : jsstring) : jsstring :=
  js "Are you sure you want to delete secret " ++ dquote ++ slug ++ dquote ++
  js "?".
Definition areYouReallySure_message (slug : jsstring) : jsstring :=
  js "Are you REALLY sure you want to delete secret " ++ dquote ++ slug ++
  dquote ++ js "?".

(** [(item) => item.id === target.id]. *)
Definition same_id (target item : object) : bool :=
  strict_eq (prop item "id") (prop target "id").

(** The object literal [{ tags, secret, id }]. *)
Definition new_entry (tags : list jsstring) (secret id : jsstring) : object :=
  [(js "tags", VArr tags); (js "secret", VStr secret); (js "id", VStr id)].

(** The body of the change made by [add]. *)
Definition add_mutator (instance : Automerge.doc) (tags : list jsstring)
    (secret id : jsstring) (draft : Doc.state) : Doc.state :=
  let draft :=
    Doc.set_secrets draft
      (push (Doc.secrets draft) (new_entry tags secret id)) in
  let draft :=
    Doc.set_version draft
      (Z.of_nat (List.length (Automerge.getHistory instance)) + 1) in
  Doc.set_doggoVersion draft DoggoPackage_version.

(** [exports.add]. *)
Definition add (secretPathOrString keyIdentifier : option jsstring)
    : prog (result Automerge.doc) :=
  localTag <- Helpers.getDecrypted secretPathOrString ;;
  catch_expected (
    Helpers.assert [Some localTag; keyIdentifier]
      (dquote ++ js "secretPathOrString, keyIdentifier" ++ dquote ++
       js " are required to add secret") ;;;
    instance <- Helpers.withErrHandling (getInstance (Some localTag)) ;;
    tags <- Helpers.prompt (js "Enter tags to find this secret later") ;;
    secret <- Helpers.prompt (js "Enter secret") ;;
    let tags := getTagsFromString tags in
    slug <- lift (slugifyTags (VArr tags)) ;;
    id <- trigger Uuid_v4 ;;
    updatedTag <- trigger
      (Automerge_change instance (add_message slug)
         (add_mutator instance tags secret id)) ;;
    Ret (Output updatedTag)).

(** The body of the change made by [delete]. *)
Definition delete_mutator (instance : Automerge.doc) (toDelete : object)
    (draft : Doc.state) : Doc.state :=
  let draft :=
    Doc.set_secrets draft
      (splice (Doc.secrets draft)
         (findIndex (same_id toDelete) (Doc.secrets draft)) 1 []) in
  let draft :=
    Doc.set_version draft
      (Z.of_nat (List.length (Automerge.getHistory instance)) + 1) in
  Doc.set_doggoVersion draft DoggoPackage_version.

(** [exports.delete], from the first confirmation on: what the operation
    does once the search has given [toDelete]. *)
Definition delete_located (instance : Automerge.doc) (toDelete : object)
    : prog (result Automerge.doc) :=
  slug <- lift (slugifyTags (prop toDelete "tags")) ;;
  areYouSure <- trigger (Enquirer_confirm (areYouSure_message slug)) ;;
  if negb areYouSure then Ret (Error (ErrValue (js "Delete cancelled")))
  else
    slug <- lift (slugifyTags (prop toDelete "tags")) ;;
    areYouReallySure <- trigger
      (Enquirer_confirm (areYouReallySure_message slug)) ;;
    if negb areYouReallySure
    then Ret (Error (ErrValue (js "Delete cancelled")))
    else
      slug <- lift (slugifyTags (prop toDelete "tags")) ;;
      updatedTag <- trigger
        (Automerge_change instance (delete_message slug)
           (delete_mutator instance toDelete)) ;;
      Ret (Output updatedTag).

(** [exports.delete]. *)
Definition delete (secretPathOrString keyIdentifier query : option jsstring)
    : prog (result Automerge.doc) :=
  catch_expected (
    Helpers.assert [secretPathOrString; keyIdentifier; query]
      (dquote ++ js "secretPathOrString, keyIdentifier, search" ++ dquote ++
       js " are required to delete secret") ;;;
    instance <- Helpers.withErrHandling (getInstance secretPathOrString) ;;
    toDelete <- Helpers.withErrHandling
      (getSingleFromList (Doc.secrets (Automerge.state instance))
         (or_empty query) tags_options) ;;
    match toDelete with
    | None => Ret (Error (ErrValue (js "No result found for search")))
    | Some toDelete => delete_located instance toDelete
    end).

(** [([key, value]) => ({ name: key, initial: ... })]. *)
Definition form_choice (entry : jsstring * value) : exn + (jsstring * value) :=
  let (key, value) := entry in
  if negb (JsString.eqb key (js "tags")) then inr (key, value)
  else
    match slugifyTags value with
    | inl e => inl e
    | inr s => inr (key, VStr s)
    end.

(** The fields the form offers: all but [id] and [isDoggo]. *)
Definition form_choices (toUpdate : object) : exn + list (jsstring * value) :=
  map_throwing form_choice
    (filter
       (fun entry =>
          negb (JsString.eqb (fst entry) (js "id")) &&
          negb (JsString.eqb (fst entry) (js "isDoggo")))
       (Object_entries toUpdate)).

(** The body of the change made by [update]. *)
Definition update_mutator (instance : Automerge.doc) (toUpdate edited : object)
    (now : Z) (draft : Doc.state) : Doc.state :=
  let draft :=
    Doc.set_secrets draft
      (splice (Doc.secrets draft)
         (findIndex (same_id toUpdate) (Doc.secrets draft)) 1
         [Object_assign [] [toUpdate; edited]]) in
  let draft :=
    Doc.set_version draft
      (Z.of_nat (List.length (Automerge.getHistory instance)) + 1) in
  let draft := Doc.set_doggoVersion draft DoggoPackage_version in
  Doc.set_updatedAt draft now.

(** The copy [Object.assign({}, toUpdate, edited)] still holds an array of
    [toUpdate], which was read from the document: some field of [toUpdate]
    is an array and [edited] has no value for it. *)
Definition keeps_document_array (toUpdate edited : object) : bool :=
  existsb
    (fun entry =>
       match snd entry, obj_lookup edited (fst entry) with
       | VArr _, None => true
       | _, _ => false
       end)
    toUpdate.

(** What the draft answers to the [splice] of the copy. *)
Definition accepts_copy (toUpdate edited : object) : exn + unit :=
  if keeps_document_array toUpdate edited
  then inl Automerge.TypeError_owned
  else inr tt.

(** [exports.update], from the form on: what the operation does once the
    search has given [toUpdate].  Inside [Automerge.change] the [splice]
    comes first: when the draft refuses the copy, the clock is not read and
    no change is made; the error is a system error, which the [catch]
    throws again. *)
Definition update_located (instance : Automerge.doc) (toUpdate : object)
    : prog (result (jsstring + Automerge.doc)) :=
  choices <- lift (form_choices toUpdate) ;;
  edited <- trigger
    (Enquirer_form
       (js "Editing '" ++ to_string (prop toUpdate "tags") ++ js "'")
       choices) ;;
  slug <- lift (slugifyTags (prop toUpdate "tags")) ;;
  lift (accepts_copy toUpdate edited) ;;;
  now <- trigger Date_now ;;
  updatedTag <- trigger
    (Automerge_change instance (update_message slug)
       (update_mutator instance toUpdate edited now)) ;;
  Ret (Output (inr updatedTag)).

(** [exports.update]; its output is a message or the new document. *)
Definition update (secretPathOrString keyIdentifier query : option jsstring)
    : prog (result (jsstring + Automerge.doc)) :=
  catch_expected (
    Helpers.assert [secretPathOrString; keyIdentifier]
      (dquote ++ js "secretPathOrString, keyIdentifier" ++ dquote ++
       js " are required to update secret") ;;;
    instance <- Helpers.withErrHandling (getInstance secretPathOrString) ;;
    toUpdate <- Helpers.withErrHandling
      (getSingleFromList (Doc.secrets (Automerge.state instance))
         (or_empty query) tags_options) ;;
    match toUpdate with
    | None => Ret (Output (inl (js "No result found for search")))
    | Some toUpdate => update_located instance toUpdate
    end).

(** The body of the change made by [init]. *)
Definition init_mutator (id : jsstring) (now : Z) (draft : Doc.state)
    : Doc.state :=
  let draft := Doc.set_isDoggo draft true in
  let draft := Doc.set_id draft id in
  let draft := Doc.set_version draft 1 in
  let draft := Doc.set_secrets draft [] in
  let draft := Doc.set_doggoVersion draft DoggoPackage_version in
  Doc.set_updatedAt draft now.

(** [exports.init]. *)
Definition init : prog Automerge.doc :=
  id <- trigger Uuid_v4 ;;
  now <- trigger Date_now ;;
  trigger (Automerge_change Automerge.init (js "Initialize") (init_mutator id now)).

(** [exports.list]. *)
Definition list (secretPathOrString keyIdentifier query : option jsstring)
    : prog (result (Datatypes.list object)) :=
  catch_expected (
    instance <- Helpers.withErrHandling (getInstance secretPathOrString) ;;
    let output := Doc.secrets (Automerge.state instance) in
    if truthy query then
      output <- Helpers.withErrHandling
        (Ret (search output (or_empty query) tags_options)) ;;
      Ret (Output output)
    else
      Ret (Output output)).

End WithExternals.
End DogTag.

(** ** Reasoning about runs *)

(** A run that follows [trace]. *)
Definition after {A} (trace : list observed)
    (r : option (outcome A * list observed * list answer))
    : option (outcome A * list observed * list answer) :=
  match r with
  | Some (o, trace', rest) => Some (o, trace ++ trace', rest)
  | None => None
  end.

(** What a call can give back: the engine's [change] gives the changed
    document, the identifier generator and the clock do not throw. *)
Definition replies {X} (ev : event X) : exn + X -> Prop :=
  match ev in event X return exn + X -> Prop with
  | Automerge_change d m f => fun r => r = inr (Automerge.change d m f)
  | Uuid_v4 => fun r => exists s, r = inr s
  | Date_now => fun r => exists n, r = inr n
  | _ => fun _ => True
  end.

(** [post p Q]: whatever the outside answers, a finished run of [p] has an
    outcome and a trace related by [Q]. *)
Fixpoint post {A} (p : prog A) (Q : outcome A -> list observed -> Prop) : Prop :=
  match p with
  | Ret a => Q (Returned a) []
  | Throw e => Q (Thrown e) []
  | Vis ev k =>
      forall r, replies ev r ->
                post (k r) (fun o trace => Q o (observe ev r :: trace))
  end.

(** What the lookup of the chosen rendering in the full list gives. *)
Definition chosen_outcome (chosen : jsstring) (list : list object)
    : outcome (result (option object)) :=
  match find_throwing (DogTag.renders_as chosen) list with
  | inr found => Returned (Output found)
  | inl e => Thrown e
  end.

(** The trace of the two calls that give an operation its instance. *)
Definition loading (strOrPath : option jsstring) (plain : jsstring)
    (instance : Automerge.doc) : list observed :=
  [ObsGetDecrypted strOrPath; ObsLoad plain (inr instance)].

(** ** What a mutating operation may show *)

(** A call that neither parses a document nor changes one. *)
Definition quiet (o : observed) : bool :=
  match o with
  | ObsChange _ _ _ | ObsLoad _ _ => false
  | _ => true
  end.

(** The rule of a change: one more entry in the history, and a version that
    is the length of the history before the change, plus one; [keeps] adds
    that [updatedAt] is left as it was. *)
Definition change_rule (keeps : bool) (o : observed) : Prop :=
  match o with
  | ObsChange d m d' =>
      Automerge.history d' = Automerge.history d ++ [m] /\
      Doc.version (Automerge.state d') =
        (Z.of_nat (List.length (Automerge.history d)) + 1)%Z /\
      (keeps = true ->
       Doc.updatedAt (Automerge.state d') = Doc.updatedAt (Automerge.state d))
  | _ => True
  end.

(** Every change of a run obeys the rule, and a document in the output is
    the result of a change of the instance that the run parsed. *)
Definition mutation_rule {B} (keeps : bool) (out : B -> option Automerge.doc)
    (o : outcome (result B)) (trace : list observed) : Prop :=
  Forall (change_rule keeps) trace /\
  (forall x d', o = Returned (Output x) -> out x = Some d' ->
     exists plain d m,
       In (ObsLoad plain (inr d)) trace /\ In (ObsChange d m d') trace).

(** The document in the output of [update], if any. *)
Definition updated_doc (x : jsstring + Automerge.doc) : option Automerge.doc :=
  match x with
  | inr d => Some d
  | inl _ => None
  end.

(** ** Lineages *)

Section Lineage.

Context {ext : Externals}.

(** A mutating operation, run to its end, showed the change of [d] into
    [d']. *)
Definition commits (d d' : Automerge.doc) : Prop :=
  exists (a b c : option jsstring) script trace rest message,
    In (ObsChange d message d') trace /\
    ((exists o, run (DogTag.add a b) script = Some (o, trace, rest)) \/
     (exists o, run (DogTag.delete a b c) script = Some (o, trace, rest)) \/
     (exists o, run (DogTag.update a b c) script = Some (o, trace, rest))).

(** The documents of one lineage: an initialized document and what the
    mutating operations make of it, one committed change after the
    other. *)
Inductive lineage : Automerge.doc -> Prop :=
| lineage_init script d trace rest :
    run DogTag.init script = Some (Returned d, trace, rest) ->
    lineage d
| lineage_commit d d' :
    lineage d -> commits d d' -> lineage d'.

End Lineage.

(** ** A matcher to run examples with *)

(** The items one of whose tags is the query, in the order of the list. *)
Definition has_tag (query : jsstring) (item : object) : bool :=
  match prop item "tags" with
  | VArr xs => existsb (JsString.eqb query) xs
  | _ => false
  end.

Definition exact_matcher : Externals := {|
  Fuse_search := fun list _ query => filter (has_tag query) list;
  DoggoPackage_version := js "2.0.0"
|}.

(** ** Sample documents *)

Definition work_entry : object :=
  DogTag.new_entry [js "email"; js "work"] (js "p@ss") (js "id-1").

(** A document holding the one entry [work_entry]. *)
Definition sample_doc : Automerge.doc := {|
  Automerge.state := {|
    Doc.isDoggo := true; Doc.id := js "doc"; Doc.version := 2;
    Doc.secrets := [work_entry]; Doc.doggoVersion := js "2.0.0";
    Doc.updatedAt := 1000 |};
  Automerge.history := [js "Initialize"; js "Add 'email, work'"]
|}.

Definition twin_a : object := DogTag.new_entry [js "work"] (js "first") (js "id-a").
Definition twin_b : object := DogTag.new_entry [js "work"] (js "second") (js "id-b").

(** The document made by [init] with identifier "doc" at time 1000, and what
    [add] makes of it for the input "email work". *)
Definition fresh_doc : Automerge.doc :=
  Automerge.change Automerge.init (js "Initialize")
    (@DogTag.init_mutator exact_matcher (js "doc") 1000).

Definition first_doc : Automerge.doc :=
  Automerge.change fresh_doc (js "Add 'email, work'")
    (@DogTag.add_mutator exact_matcher fresh_doc [js "email"; js "work"]
       (js "p@ss") (js "id-1")).

(** ** Persisting *)

(** [.replace(/\r?\n|\r/g, ' ')]: from left to right, a carriage return
    followed by a line feed, a line feed alone or a carriage return alone
    becomes one space. *)
Fixpoint normalize_newlines (s : jsstring) : jsstring :=
  match s with
  | [] => []
  | c :: rest =>
      if N.eqb c 13 then
        match rest with
        | c' :: rest' =>
            if N.eqb c' 10 then 32%N :: normalize_newlines rest'
            else 32%N :: normalize_newlines rest
        | [] => [32%N]
        end
      else if N.eqb c 10 then 32%N :: normalize_newlines rest
      else c :: normalize_newlines rest
  end.

(** A carriage return or a line feed. *)
Definition is_line_break (c : N) : bool := N.eqb c 13 || N.eqb c 10.

(** What persisting requires: the engine's [save], the encryption of a text
    for a key, which answers [{ output }] or [{ error }], and the writing of
    a file, whose failure is [Some]. *)
Class Persistence : Type := {
  Automerge_save : Automerge.doc -> exn + jsstring;
  Doggo_encrypt : jsstring -> jsstring -> exn + result jsstring;
  Fs_writeFile : option jsstring -> jsstring -> option exn
}.

(** [Helpers.withErrHandling] around a call that has finished. *)
Definition unwrap {A} (r : exn + result A) : exn + A :=
  match r with
  | inl e => inl e
  | inr (Output a) => inr a
  | inr (Error e) => inl e
  end.

(** The handler of every operation, for code that has finished. *)
Definition caught {A} (r : exn + result A) : outcome (result A) :=
  match r with
  | inr a => Returned a
  | inl error => if Bounce_isSystem error then Thrown error else Returned (Error error)
  end.

Definition outcome_sum {A} (o : outcome (result A)) : exn + result A :=
  match o with
  | Returned r => inr r
  | Thrown e => inl e
  end.

Module Persist.
Section WithPersistence.

Context {cap : Persistence}.

(** [exports.getAutomergeSave]. *)
Definition getAutomergeSave (instance : Automerge.doc) : outcome (result jsstring) :=
  caught
    match Automerge_save instance with
    | inl e => inl e
    | inr saved => inr (Output (normalize_newlines saved))
    end.

Definition required_to_save : jsstring :=
  dquote ++ js "keyIdentifier, instance" ++ dquote ++ js " are required to save".

(** The body of the [try] of [exports.encryptAndSave]: what it throws, if
    anything, and the writes it made, each a path with the data. *)
Definition encryptAndSave_body (savePath keyIdentifier : option jsstring)
    (instance : option Automerge.doc)
    : (exn + unit) * list (option jsstring * jsstring) :=
  match keyIdentifier, instance with
  | Some (c :: key), Some instance =>
      match unwrap (outcome_sum (getAutomergeSave instance)) with
      | inl e => (inl e, [])
      | inr serialized =>
          match unwrap (Doggo_encrypt (c :: key) serialized) with
          | inl e => (inl e, [])
          | inr encrypted =>
              (match Fs_writeFile savePath encrypted with
               | Some e => inl e
               | None => inr tt
               end,
               [(savePath, encrypted)])
          end
      end
  | _, _ => (inl (ErrObject false required_to_save), [])
  end.

(** [exports.encryptAndSave]: [undefined] ([None]) when the file was
    written, [{ error }] or a thrown system error otherwise; with the
    writes made. *)
Definition encryptAndSave (savePath keyIdentifier : option jsstring)
    (instance : option Automerge.doc)
    : outcome (option exn) * list (option jsstring * jsstring) :=
  let (thrown, writes) := encryptAndSave_body savePath keyIdentifier instance in
  (match thrown with
   | inr _ => Returned None
   | inl error =>
       if Bounce_isSystem error then Thrown error else Returned (Some error)
   end,
   writes).

End WithPersistence.
End Persist.

(** A persistence to run examples with: the saved form is the last change
    message, the ciphertext is the text behind the key, writing succeeds. *)
Definition plain_persistence : Persistence := {|
  Automerge_save := fun d => inr (last (Automerge.history d) []);
  Doggo_encrypt := fun key text => inr (Output (key ++ js ":" ++ text));
  Fs_writeFile := fun _ _ => None
|}.

(** ** What each operation does to the document *)

(** A prompt: a question put to the user. *)
Definition asks (o : observed) : bool :=
  match o with
  | ObsPrompt _ | ObsConfirm _ | ObsSelect _ _ | ObsForm _ _ => true
  | _ => false
  end.

(** The outcome is a result whose output holds a document. *)
Definition returned_doc {B} (out : B -> option Automerge.doc)
    (o : outcome (result B)) : bool :=
  match o with
  | Returned (Output x) =>
      match out x with
      | Some _ => true
      | None => false
      end
  | _ => false
  end.

(** Every change of a trace is a step of the given kind. *)
Definition each_change (step : Automerge.doc -> Automerge.doc -> Prop)
    (trace : list observed) : Prop :=
  Forall (fun o => match o with
                   | ObsChange d _ d' => step d d'
                   | _ => True
                   end) trace.

(** One change when a document is returned, none otherwise; and every
    change a step of the given kind. *)
Definition op_rule {B} (step : Automerge.doc -> Automerge.doc -> Prop)
    (out : B -> option Automerge.doc)
    (o : outcome (result B)) (trace : list observed) : Prop :=
  changes trace = (if returned_doc out o then 1 else 0) /\
  each_change step trace.

Section Steps.

Context {ext : Externals}.

(** The identity of the document is kept, and the version of the package is
    written. *)
Definition keeps_identity (d d' : Automerge.doc) : Prop :=
  Doc.id (Automerge.state d') = Doc.id (Automerge.state d) /\
  Doc.isDoggo (Automerge.state d') = Doc.isDoggo (Automerge.state d) /\
  Doc.doggoVersion (Automerge.state d') = DoggoPackage_version.

Definition add_step (d d' : Automerge.doc) : Prop :=
  keeps_identity d d' /\
  exists tagsInput secret id,
    Doc.secrets (Automerge.state d') =
    Doc.secrets (Automerge.state d) ++
    [DogTag.new_entry (getTagsFromString tagsInput) secret id].

Definition delete_step (d d' : Automerge.doc) : Prop :=
  keeps_identity d d' /\
  exists target,
    Doc.secrets (Automerge.state d') =
    splice (Doc.secrets (Automerge.state d))
      (findIndex (DogTag.same_id target) (Doc.secrets (Automerge.state d))) 1 [].

Definition update_step (d d' : Automerge.doc) : Prop :=
  keeps_identity d d' /\
  exists target edited,
    Doc.secrets (Automerge.state d') =
    splice (Doc.secrets (Automerge.state d))
      (findIndex (DogTag.same_id target) (Doc.secrets (Automerge.state d))) 1
      [Object_assign [] [target; edited]] /\
    DogTag.keeps_document_array target edited = false.

End Steps.

(** A document with two entries under the same tags. *)
Definition twins_list_doc : Automerge.doc := {|
  Automerge.state := {|
    Doc.isDoggo := true; Doc.id := js "doc"; Doc.version := 3;
    Doc.secrets := [twin_a; twin_b]; Doc.doggoVersion := js "2.0.0";
    Doc.updatedAt := 1000 |};
  Automerge.history := [js "Initialize"; js "Add 'work'"; js "Add 'work'"]
|}.

(** A matcher that also finds an entry whose tags are one string, when the
    query is that string. *)
Definition has_tags (query : jsstring) (item : object) : bool :=
  match prop item "tags" with
  | VArr xs => existsb (JsString.eqb query) xs
  | VStr s => JsString.eqb query s
  | _ => false
  end.

Definition string_matcher : Externals := {|
  Fuse_search := fun list _ query => filter (has_tags query) list;
  DoggoPackage_version := js "2.0.0"
|}.

(** [work_entry] after an update through the form, and a document that
    holds it. *)
Definition edited_entry : object :=
  Object_assign [] [work_entry;
                    [(js "tags", VStr (js "email, job")); (js "secret", VStr (js "new"))]].

Definition edited_doc : Automerge.doc := {|
  Automerge.state := {|
    Doc.isDoggo := true; Doc.id := js "doc"; Doc.version := 3;
    Doc.secrets := [edited_entry]; Doc.doggoVersion := js "2.0.0";
    Doc.updatedAt := 2000 |};
  Automerge.history :=
    [js "Initialize"; js "Add 'email, work'"; js "Update 'email, work'"]
|}.

(** A document of three entries, the one under 'bank' in the middle, and
    what the form gives back when its secret is edited: the fields it
    offered, as strings. *)
Definition bank_entry : object :=
  DogTag.new_entry [js "bank"] (js "1234") (js "id-2").

Definition bank_doc : Automerge.doc := {|
  Automerge.state := {|
    Doc.isDoggo := true; Doc.id := js "doc"; Doc.version := 4;
    Doc.secrets := [twin_a; bank_entry; work_entry];
    Doc.doggoVersion := js "2.0.0"; Doc.updatedAt := 1000 |};
  Automerge.history :=
    [js "Initialize"; js "Add 'work'"; js "Add 'bank'"; js "Add 'email, work'"]
|}.

Definition bank_reply : object :=
  [(js "tags", VStr (js "bank")); (js "secret", VStr (js "5678"))].

(** [work_entry] beside an entry under 'work'; the reply of the form when
    the tags of [work_entry] are edited to 'work'; and the document that
    [update] makes of the two. *)
Definition pair_doc : Automerge.doc := {|
  Automerge.state := {|
    Doc.isDoggo := true; Doc.id := js "doc"; Doc.version := 3;
    Doc.secrets := [work_entry; twin_a]; Doc.doggoVersion := js "2.0.0";
    Doc.updatedAt := 1000 |};
  Automerge.history := [js "Initialize"; js "Add 'email, work'"; js "Add 'work'"]
|}.

Definition retagged_reply : object :=
  [(js "tags", VStr (js "work")); (js "secret", VStr (js "p@ss"))].

Definition pair_doc_updated : Automerge.doc :=
  Automerge.change pair_doc (js "Update 'email, work'")
    (@DogTag.update_mutator string_matcher pair_doc work_entry retagged_reply 2000).

(** [work_entry] in front of two entries under 'work'; the reply of the form
    when it is sent back as it was shown; and the document that [update]
    makes of the two. *)
Definition triple_doc : Automerge.doc := {|
  Automerge.state := {|
    Doc.isDoggo := true; Doc.id := js "doc"; Doc.version := 4;
    Doc.secrets := [work_entry; twin_a; twin_b]; Doc.doggoVersion := js "2.0.0";
    Doc.updatedAt := 1000 |};
  Automerge.history :=
    [js "Initialize"; js "Add 'email, work'"; js "Add 'work'"; js "Add 'work'"]
|}.

Definition untouched_reply : object :=
  [(js "tags", VStr (js "email, work")); (js "secret", VStr (js "p@ss"))].

Definition triple_doc_updated : Automerge.doc :=
  Automerge.change triple_doc (js "Update 'email, work'")
    (@DogTag.update_mutator string_matcher triple_doc work_entry untouched_reply 2000).

(** * Properties *)

(** ** Strings *)

Lemma jseqb_spec (a b : jsstring) : reflect (a = b) (JsString.eqb a b).
Proof.
  revert b; induction a as [|x a IH]; intros [|y b]; simpl;
    try (constructor; congruence).
  destruct (N.eqb_spec x y) as [->|Hxy]; simpl.
  - destruct (IH b) as [->|Hab]; constructor; congruence.
  - constructor; congruence.
Qed.

Lemma jseqb_refl (a : jsstring) : JsString.eqb a a = true.
Proof. destruct (jseqb_spec a a); congruence. Qed.

(** ** Splitting *)

Section Split.

Lemma split_nonempty b s : split_separators b s <> [].
Proof.
  revert b; induction s as [|c s IH]; intros b; simpl.
  - discriminate.
  - destruct (is_separator c).
    + destruct b; [apply IH | discriminate].
    + destruct (split_separators false s); discriminate.
Qed.

(** A separator-free prefix goes to the first piece. *)
Lemma split_prefix t r :
  separator_free t = true ->
  split_separators false (t ++ r) =
  (t ++ hd [] (split_separators false r)) :: tl (split_separators false r).
Proof.
  induction t as [|c t IH]; simpl; intros H.
  - pose proof (split_nonempty false r).
    destruct (split_separators false r); [congruence | reflexivity].
  - apply andb_true_iff in H as [Hc Ht].
    apply negb_true_iff in Hc. rewrite Hc, (IH Ht). reflexivity.
Qed.

Lemma join_cons2 sep x y rest :
  join sep (x :: y :: rest) = x ++ sep ++ join sep (y :: rest).
Proof. reflexivity. Qed.

(** After a run of separators the flag no longer matters, unless another
    separator follows. *)
Lemma split_flag_start s :
  starts_with_separator s = false ->
  split_separators true s = split_separators false s.
Proof.
  destruct s as [|c s]; [reflexivity|]. simpl. now intros ->.
Qed.

Lemma join_starts t rest :
  separator_free t = true -> (rest = [] \/ t <> []) ->
  starts_with_separator (join (js ", ") (t :: rest)) = false.
Proof.
  intros Hsf Hne. destruct t as [|c t].
  - destruct Hne as [->|Hne]; [reflexivity | congruence].
  - simpl in Hsf. apply andb_true_iff in Hsf as [Hc _].
    apply negb_true_iff in Hc. destruct rest; simpl; exact Hc.
Qed.

(** Joining and splitting again gives the tags back, when only the first
    and the last of them may be empty. *)
Lemma split_join (T : list jsstring) :
  T <> [] ->
  forallb separator_free T = true ->
  Forall (fun t => t <> []) (removelast (tl T)) ->
  getTagsFromString (join (js ", ") T) = T.
Proof.
  unfold getTagsFromString.
  induction T as [|t T IH]; [congruence|]. intros _ Hsf Hmid.
  simpl in Hsf. apply andb_true_iff in Hsf as [Ht HT].
  destruct T as [|t2 T].
  - simpl. pose proof (split_prefix t [] Ht) as E.
    rewrite !app_nil_r in E. exact E.
  - rewrite join_cons2, (split_prefix _ _ Ht).
    assert (Hsep : forall r', split_separators false (js ", " ++ r') =
                              [] :: split_separators true r') by reflexivity.
    rewrite Hsep. cbn [hd tl]. rewrite app_nil_r. f_equal.
    assert (Ht2 : separator_free t2 = true)
      by (simpl in HT; now apply andb_true_iff in HT as [? _]).
    assert (Hne : T = [] \/ t2 <> []).
    { destruct T as [|t3 T]; [now left | right].
      cbn [tl] in Hmid.
      change (removelast (t2 :: t3 :: T)) with (t2 :: removelast (t3 :: T)) in Hmid.
      now inversion Hmid. }
    rewrite (split_flag_start _ (join_starts t2 T Ht2 Hne)).
    apply IH; [discriminate | exact HT |].
    cbn [tl] in Hmid |- *. destruct T as [|t3 T]; [constructor|].
    change (removelast (t2 :: t3 :: T)) with (t2 :: removelast (t3 :: T)) in Hmid.
    now inversion Hmid.
Qed.

(** No piece holds a separator. *)
Lemma split_separator_free b s :
  Forall (fun t => separator_free t = true) (split_separators b s).
Proof.
  revert b; induction s as [|c s IH]; intros b; simpl.
  - repeat constructor.
  - destruct (is_separator c) eqn:Hc.
    + destruct b; [apply IH | constructor; [reflexivity | apply IH]].
    + specialize (IH false).
      destruct (split_separators false s) as [|p ps] eqn:E.
      * repeat constructor. simpl. now rewrite Hc.
      * inversion IH; subst. constructor; [|assumption].
        simpl. now rewrite Hc.
Qed.

(** After a separator, the next piece is empty only at the end of the
    input. *)
Lemma split_after_run s :
  hd [] (split_separators true s) = [] -> split_separators true s = [[]].
Proof.
  induction s as [|c s IH]; simpl; [reflexivity|].
  destruct (is_separator c); [exact IH|].
  destruct (split_separators false s); discriminate.
Qed.

(** Every piece but the first and the last is non-empty. *)
Lemma split_interior b s :
  Forall (fun t => t <> []) (removelast (tl (split_separators b s))).
Proof.
  revert b; induction s as [|c s IH]; intros b; simpl.
  - constructor.
  - destruct (is_separator c).
    + destruct b; [apply IH|]. cbn [tl].
      pose proof (split_after_run s) as Hrun. specialize (IH true).
      destruct (split_separators true s) as [|p ps] eqn:E; [constructor|].
      destruct ps as [|q ps]; [constructor|].
      change (removelast (p :: q :: ps)) with (p :: removelast (q :: ps)).
      constructor; [|exact IH].
      intros ->. specialize (Hrun eq_refl). discriminate.
    + specialize (IH false).
      destruct (split_separators false s); [constructor | exact IH].
Qed.

Lemma split_first s :
  hd [] (split_separators false s) = [] <->
  s = [] \/ starts_with_separator s = true.
Proof.
  destruct s as [|c s]; simpl; [intuition|].
  destruct (is_separator c).
  - simpl. intuition.
  - destruct (split_separators false s); simpl; split;
      intros H; try discriminate; destruct H; discriminate.
Qed.

(** A separator in the input makes at least two pieces. *)
Lemma split_two s :
  existsb is_separator s = true -> tl (split_separators false s) <> [].
Proof.
  induction s as [|c s IH]; simpl; [discriminate|].
  destruct (is_separator c); simpl.
  - intros _. apply split_nonempty.
  - intros H. specialize (IH H).
    destruct (split_separators false s); [exact IH | exact IH].
Qed.

Lemma last_separator_exists s :
  is_separator (last s 0%N) = true -> existsb is_separator s = true.
Proof.
  induction s as [|c s IH]; [discriminate|].
  destruct s as [|c' s].
  - simpl. intros ->. reflexivity.
  - intros H. change (last (c :: c' :: s) 0%N) with (last (c' :: s) 0%N) in H.
    change (existsb is_separator (c :: c' :: s))
      with (is_separator c || existsb is_separator (c' :: s)).
    rewrite (IH H). apply orb_true_r.
Qed.

Lemma split_last b s :
  last (split_separators b s) [0%N] = [] <->
  s = [] \/ is_separator (last s 0%N) = true.
Proof.
  revert b; induction s as [|c s IH]; intros b.
  - simpl. intuition.
  - assert (Hlast : forall d, s <> [] -> last (c :: s) d = last s d)
      by (intros d; destruct s; [congruence | reflexivity]).
    cbn [split_separators]. destruct (is_separator c) eqn:Hc.
    + assert (G : last (split_separators true s) [0%N] = [] <->
                  c :: s = [] \/ is_separator (last (c :: s) 0%N) = true).
      { rewrite (IH true). destruct s as [|c' s].
        - simpl. rewrite Hc. intuition.
        - rewrite Hlast by discriminate. intuition discriminate. }
      destruct b; [exact G|].
      pose proof (split_nonempty true s).
      destruct (split_separators true s) eqn:E; [congruence|]. exact G.
    + pose proof (split_nonempty false s) as Hne.
      pose proof (split_two s) as Htwo. specialize (IH false).
      destruct (split_separators false s) as [|p ps] eqn:E; [congruence|].
      destruct s as [|c' s].
      * simpl in E. injection E as <- <-. simpl. rewrite Hc.
        split; [discriminate | intros [?|?]; discriminate].
      * rewrite Hlast by discriminate.
        destruct ps as [|q ps].
        -- change (last [c :: p] [0%N]) with (c :: p).
           split; [discriminate|]. intros [?|H]; [discriminate|].
           apply last_separator_exists in H. apply Htwo in H. now elim H.
        -- change (last ((c :: p) :: q :: ps) [0%N])
             with (last (p :: q :: ps) [0%N]).
           rewrite IH. intuition discriminate.
Qed.

End Split.

(** ** Runs *)

Section Runs.

Lemma run_bind {A B} (m : prog A) (f : A -> prog B) script :
  run (bind m f) script =
  match run m script with
  | None => None
  | Some (Returned a, trace, rest) => after trace (run (f a) rest)
  | Some (Thrown e, trace, rest) => Some (Thrown e, trace, rest)
  end.
Proof.
  revert script; induction m as [a|e|X ev k IH]; intros script; simpl.
  - destruct (run (f a) script) as [[[o tr] rest]|]; reflexivity.
  - reflexivity.
  - destruct (respond ev script) as [[r rest]|]; [|reflexivity].
    rewrite IH. destruct (run (k r) rest) as [[[[a|e] tr] rest']|]; simpl;
      try reflexivity.
    destruct (run (f a) rest') as [[[o tr'] rest'']|]; reflexivity.
Qed.

Lemma run_try_catch {A} (body : prog A) (handler : exn -> prog A) script :
  run (try_catch body handler) script =
  match run body script with
  | None => None
  | Some (Returned a, trace, rest) => Some (Returned a, trace, rest)
  | Some (Thrown e, trace, rest) => after trace (run (handler e) rest)
  end.
Proof.
  revert script; induction body as [a|e|X ev k IH]; intros script; simpl.
  - reflexivity.
  - destruct (run (handler e) script) as [[[o tr] rest]|]; reflexivity.
  - destruct (respond ev script) as [[r rest]|]; [|reflexivity].
    rewrite IH. destruct (run (k r) rest) as [[[[a|e] tr] rest']|]; simpl;
      try reflexivity.
    destruct (run (handler e) rest') as [[[o tr'] rest'']|]; reflexivity.
Qed.

(** A handler is not entered by what its body does before it throws. *)
Lemma run_try_bind {A B} (m : prog A) (f : A -> prog B) handler script
    a trace rest :
  run m script = Some (Returned a, trace, rest) ->
  run (try_catch (bind m f) handler) script =
  after trace (run (try_catch (f a) handler) rest).
Proof.
  intros Hm. rewrite !run_try_catch, run_bind, Hm.
  destruct (run (f a) rest) as [[[[b|e] tr] rest']|]; simpl; try reflexivity.
  destruct (run (handler e) rest') as [[[o tr'] rest'']|]; simpl;
    [rewrite app_assoc|]; reflexivity.
Qed.

Lemma run_withErrHandling {A} (call : prog (result A)) script a trace rest :
  run call script = Some (Returned (Output a), trace, rest) ->
  run (Helpers.withErrHandling call) script = Some (Returned a, trace, rest).
Proof.
  intros H. unfold Helpers.withErrHandling. rewrite run_bind, H. simpl.
  now rewrite app_nil_r.
Qed.

Lemma respond_replies {X} (ev : event X) script r rest :
  respond ev script = Some (r, rest) -> replies ev r.
Proof.
  destruct ev; simpl; trivial;
    destruct script as [|[] script]; intros H; inversion H; eauto.
Qed.

(** [post] speaks of every finished run. *)
Lemma post_run {A} (p : prog A) Q script o trace rest :
  post p Q -> run p script = Some (o, trace, rest) -> Q o trace.
Proof.
  revert Q script trace; induction p as [a|e|X ev k IH];
    intros Q script trace; simpl.
  - intros HQ H; inversion H; subst; exact HQ.
  - intros HQ H; inversion H; subst; exact HQ.
  - intros Hp H.
    destruct (respond ev script) as [[r rest0]|] eqn:Er; [|discriminate].
    destruct (run (k r) rest0) as [[[o' tr'] rest']|] eqn:Ek; [|discriminate].
    inversion H; subst.
    exact (IH r _ _ _ (Hp r (respond_replies _ _ _ _ Er)) Ek).
Qed.

Lemma post_mono {A} (p : prog A) (Q Q' : outcome A -> list observed -> Prop) :
  (forall o trace, Q o trace -> Q' o trace) -> post p Q -> post p Q'.
Proof.
  revert Q Q'; induction p as [a|e|X ev k IH]; intros Q Q' HQ; simpl; auto.
  intros Hp r Hr. apply (IH r) with (Q := fun o tr => Q o (observe ev r :: tr)).
  - intros o tr. apply HQ.
  - apply Hp, Hr.
Qed.

Lemma post_bind {A B} (m : prog A) (f : A -> prog B) Q :
  post m (fun o trace =>
    match o with
    | Returned a => post (f a) (fun o' trace' => Q o' (trace ++ trace'))
    | Thrown e => Q (Thrown e) trace
    end) ->
  post (bind m f) Q.
Proof.
  revert Q; induction m as [a|e|X ev k IH]; intros Q; simpl;
    [auto | auto | intros Hp r Hr; apply IH; exact (Hp r Hr)].
Qed.

Lemma post_try_catch {A} (body : prog A) handler Q :
  post body (fun o trace =>
    match o with
    | Returned a => Q (Returned a) trace
    | Thrown e => post (handler e) (fun o' trace' => Q o' (trace ++ trace'))
    end) ->
  post (try_catch body handler) Q.
Proof.
  revert Q; induction body as [a|e|X ev k IH]; intros Q; simpl;
    [auto | auto | intros Hp r Hr; apply IH; exact (Hp r Hr)].
Qed.

End Runs.

(** ** The search and the resolution of a single target *)

Section Resolution.

Context {ext : Externals}.

(** For a list of objects, [search] answers what Fuse answers. *)
Lemma search_fuse (list : list object) query opts :
  DogTag.search list query opts = Output (Fuse_search list opts query).
Proof.
  unfold DogTag.search.
  assert (E : forall res : Datatypes.list object,
             filter (fun item => negb (DogTag.isNaN item)) (map DogTag.parseInt res) = []).
  { induction res; simpl; auto. }
  rewrite E. destruct (Fuse_search list opts query); reflexivity.
Qed.

Lemma getSingleFromList_none (list : list object) query opts script :
  Fuse_search list opts query = [] ->
  run (DogTag.getSingleFromList list query opts) script =
  Some (Returned (Output None), [], script).
Proof.
  intros E. unfold DogTag.getSingleFromList. rewrite search_fuse, E.
  reflexivity.
Qed.

Lemma getSingleFromList_one (list : list object) query opts r script :
  Fuse_search list opts query = [r] ->
  run (DogTag.getSingleFromList list query opts) script =
  Some (Returned (Output (Some r)), [], script).
Proof.
  intros E. unfold DogTag.getSingleFromList. rewrite search_fuse, E.
  reflexivity.
Qed.

Lemma map_slugify results tagss :
  Forall2 (fun r ts => prop r "tags" = VArr ts) results tagss ->
  map_throwing (fun r => slugifyTags (prop r "tags")) results =
  inr (map (join (js ", ")) tagss).
Proof.
  induction 1 as [|r ts results tagss Hr _ IH]; simpl; [reflexivity|].
  rewrite Hr, IH. reflexivity.
Qed.

Lemma renders_as_throws chosen (list : list object) e :
  find_throwing (DogTag.renders_as chosen) list = inl e -> e = TypeError_join.
Proof.
  induction list as [|item list IH]; simpl; [discriminate|].
  unfold DogTag.renders_as at 1.
  destruct (prop item "tags"); simpl; try (intros H; inversion H; reflexivity).
  destruct (JsString.eqb chosen _); [discriminate | exact IH].
Qed.

(** With several candidates, a run is the selection prompt followed by the
    lookup of the reply in the full list. *)
Lemma getSingleFromList_many (list : list object) query opts tagss script :
  1 < List.length (Fuse_search list opts query) ->
  Forall2 (fun r ts => prop r "tags" = VArr ts)
    (Fuse_search list opts query) tagss ->
  run (DogTag.getSingleFromList list query opts) script =
  match script with
  | AStr chosen :: rest =>
      Some (chosen_outcome chosen list,
            [ObsSelect (js "Choose from the list") (map (join (js ", ")) tagss)],
            rest)
  | AThrow e :: rest =>
      Some (if Bounce_isSystem e then Thrown e else Returned (Error e),
            [ObsSelect (js "Choose from the list") (map (join (js ", ")) tagss)],
            rest)
  | _ => None
  end.
Proof.
  intros Hlen Htags. unfold DogTag.getSingleFromList, chosen_outcome.
  rewrite search_fuse. simpl.
  apply Nat.ltb_lt in Hlen. rewrite Hlen.
  rewrite (map_slugify _ _ Htags). simpl.
  destruct script as [|[e|chosen| | | |] rest]; simpl; try reflexivity.
  - destruct (Bounce_isSystem e); reflexivity.
  - destruct (find_throwing (DogTag.renders_as chosen) list) as [e|found] eqn:E;
      simpl; [|reflexivity].
    apply renders_as_throws in E. subst e. reflexivity.
Qed.

(** The lookup answers the first item of the list that renders as the
    reply, when the items before it are rendered without failure. *)
Lemma find_first_rendering chosen (before : list object) item after ts :
  Forall (fun it => exists ts', prop it "tags" = VArr ts' /\
                                join (js ", ") ts' <> chosen) before ->
  prop item "tags" = VArr ts ->
  join (js ", ") ts = chosen ->
  find_throwing (DogTag.renders_as chosen) (before ++ item :: after) =
  inr (Some item).
Proof.
  intros Hbefore Hitem Hts.
  induction Hbefore as [|it before (ts' & Hit & Hne) _ IH]; simpl.
  - unfold DogTag.renders_as. rewrite Hitem. simpl. rewrite Hts.
    now rewrite jseqb_refl.
  - unfold DogTag.renders_as at 1. rewrite Hit. simpl.
    destruct (jseqb_spec chosen (join (js ", ") ts')) as [E|_];
      [congruence | exact IH].
Qed.

Lemma two_in_length {A} (a b : A) (l : list A) :
  In a l -> In b l -> a <> b -> 1 < List.length l.
Proof.
  destruct l as [|x [|y l]]; simpl; try tauto; [|lia].
  intros [->|[]] [->|[]] H. congruence.
Qed.

Lemma quiet_changes trace : forallb quiet trace = true -> changes trace = 0.
Proof.
  unfold changes. induction trace as [|o trace IH]; simpl; [reflexivity|].
  intros H. apply andb_true_iff in H as [Ho Ht].
  destruct o; simpl; auto; discriminate.
Qed.

Lemma quiet_rule keeps trace :
  forallb quiet trace = true -> Forall (change_rule keeps) trace.
Proof.
  induction trace as [|o trace IH]; simpl; [constructor|].
  intros H. apply andb_true_iff in H as [Ho Ht].
  constructor; [|auto]. destruct o; try exact I. discriminate.
Qed.

End Resolution.

(** ** Arrays and objects *)

Section Arrays.

Lemma findIndex_from_first {A} (p : A -> bool) before x behind i :
  forallb (fun y => negb (p y)) before = true ->
  p x = true ->
  findIndex_from p (before ++ x :: behind) i =
  (i + Z.of_nat (List.length before))%Z.
Proof.
  revert i; induction before as [|y before IH]; intros i Hbefore Hx; simpl.
  - rewrite Hx. lia.
  - simpl in Hbefore. apply andb_true_iff in Hbefore as [Hy Hbefore].
    apply negb_true_iff in Hy. rewrite Hy, IH by assumption. lia.
Qed.

Lemma findIndex_first {A} (p : A -> bool) before x behind :
  forallb (fun y => negb (p y)) before = true ->
  p x = true ->
  findIndex p (before ++ x :: behind) = Z.of_nat (List.length before).
Proof.
  intros. unfold findIndex. now rewrite findIndex_from_first.
Qed.

(** Replacing the one element at the place of [x]. *)
Lemma splice_at {A} (before : list A) x behind items :
  splice (before ++ x :: behind) (Z.of_nat (List.length before)) 1 items =
  before ++ items ++ behind.
Proof.
  unfold splice.
  assert (E : (Z.of_nat (List.length before) <? 0)%Z = false)
    by (apply Z.ltb_ge; lia).
  rewrite E, length_app. cbn [List.length].
  rewrite Z.min_l by lia. rewrite Nat2Z.id.
  rewrite firstn_app, firstn_all, Nat.sub_diag. cbn [firstn].
  rewrite app_nil_r. f_equal. f_equal.
  rewrite skipn_app, skipn_all2 by lia.
  replace (List.length before + 1 - List.length before) with 1 by lia.
  reflexivity.
Qed.

Lemma obj_lookup_set (o : object) k v k' :
  obj_lookup (obj_set o k v) k' =
  if JsString.eqb k k' then Some v else obj_lookup o k'.
Proof.
  induction o as [|[k0 w] o IH]; simpl.
  - reflexivity.
  - destruct (jseqb_spec k0 k) as [->|Hk0]; simpl.
    + destruct (JsString.eqb k k'); reflexivity.
    + rewrite IH. destruct (jseqb_spec k0 k') as [->|Hk0']; [|reflexivity].
      destruct (jseqb_spec k k') as [->|_]; [congruence | reflexivity].
Qed.

Lemma obj_lookup_absent (o : object) k :
  ~ In k (map fst o) -> obj_lookup o k = None.
Proof.
  induction o as [|[k0 w] o IH]; simpl; [reflexivity|]. intros H.
  destruct (jseqb_spec k0 k) as [->|_]; [tauto|]. apply IH. tauto.
Qed.

(** A property of the source wins over the target's. *)
Lemma obj_lookup_assign (target source : object) k :
  NoDup (map fst source) ->
  obj_lookup (Object_assign1 target source) k =
  match obj_lookup source k with
  | Some v => Some v
  | None => obj_lookup target k
  end.
Proof.
  unfold Object_assign1. revert target.
  induction source as [|[k0 v0] source IH]; intros target Hnd; simpl.
  - reflexivity.
  - inversion Hnd as [|? ? Hnotin Hnd']; subst.
    rewrite IH by assumption. rewrite obj_lookup_set.
    destruct (jseqb_spec k0 k) as [->|_]; [|reflexivity].
    now rewrite (obj_lookup_absent source k Hnotin).
Qed.

(** A key that the source lacks keeps the target's value. *)
Lemma obj_lookup_assign_absent (target source : object) k :
  obj_lookup source k = None ->
  obj_lookup (Object_assign1 target source) k = obj_lookup target k.
Proof.
  unfold Object_assign1. revert target.
  induction source as [|[k0 v0] source IH]; intros target Hk; simpl.
  - reflexivity.
  - simpl in Hk. destruct (jseqb_spec k0 k) as [->|Hne]; [discriminate|].
    rewrite IH by assumption. rewrite obj_lookup_set.
    destruct (jseqb_spec k0 k); [congruence | reflexivity].
Qed.


End Arrays.

(** ** The operations, backwards *)

(** Stepping through a program under [post]: a call is followed into its
    continuation for every reply it can get, and a branch on data is followed
    both ways. *)
Ltac reply :=
  let r := fresh "r" in
  let H := fresh "Hr" in
  intros r H; simpl in H;
  match type of H with
  | True => destruct r; clear H
  | ex _ => destruct H as [? H]; subst r
  | _ = _ => subst r
  end.

Ltac post_steps :=
  repeat first
    [ progress simpl
    | match goal with
      | |- forall r : exn + _, _ -> post _ _ => reply
      | |- context [lift ?x] => destruct x eqn:?; unfold lift at 1
      | |- context [match ?x with _ => _ end] => destruct x eqn:?
      end ].

Ltac find_in :=
  simpl;
  repeat first
    [ left; reflexivity
    | apply in_or_app; right; simpl
    | right ].

Ltac rule_leaf :=
  unfold mutation_rule; split;
  [ repeat first
      [ apply Forall_nil
      | apply Forall_cons;
        [simpl; auto; repeat split; (reflexivity || discriminate)|]
      | apply quiet_rule; assumption
      | apply Forall_app; split ]
  | intros ? ? ? ?; try discriminate;
    repeat match goal with
           | H : Returned _ = Returned _ |- _ => inversion H; clear H; subst
           | H : Some _ = Some _ |- _ => inversion H; clear H; subst
           | H : updated_doc _ = Some _ |- _ => simpl in H
           end;
    try discriminate;
    try (do 3 eexists; split; find_in) ].

Section Rules.

Context {ext : Externals}.

(** The resolution step only prompts. *)
Lemma getSingleFromList_quiet (list : list object) query opts :
  post (DogTag.getSingleFromList list query opts)
    (fun _ trace => forallb quiet trace = true).
Proof.
  unfold DogTag.getSingleFromList, catch_expected. rewrite search_fuse.
  post_steps; reflexivity.
Qed.

Lemma add_rule a b : post (DogTag.add a b) (mutation_rule true Some).
Proof.
  unfold DogTag.add, DogTag.getInstance, catch_expected, Helpers.assert,
    Helpers.getDecrypted, Helpers.withErrHandling, Helpers.prompt.
  post_steps; rule_leaf.
Qed.

#[local] Arguments DogTag.getSingleFromList : simpl never.

Lemma delete_rule a b q : post (DogTag.delete a b q) (mutation_rule true Some).
Proof.
  unfold DogTag.delete, DogTag.delete_located, DogTag.getInstance,
    catch_expected, Helpers.assert, Helpers.getDecrypted,
    Helpers.withErrHandling.
  post_steps; try (rule_leaf; fail).
  apply post_try_catch, post_bind, post_bind.
  eapply post_mono; [|apply getSingleFromList_quiet].
  intros o trace Hquiet. simpl in Hquiet.
  post_steps; rule_leaf.
Qed.

Lemma update_rule a b q :
  post (DogTag.update a b q) (mutation_rule false updated_doc).
Proof.
  unfold DogTag.update, DogTag.update_located, DogTag.getInstance,
    catch_expected, Helpers.assert, Helpers.getDecrypted,
    Helpers.withErrHandling.
  post_steps; try (rule_leaf; fail).
  apply post_try_catch, post_bind, post_bind.
  eapply post_mono; [|apply getSingleFromList_quiet].
  intros o trace Hquiet. simpl in Hquiet.
  post_steps; rule_leaf.
Qed.

(** [list] performs no mutation. *)
Lemma list_reads a b q :
  post (DogTag.list a b q) (fun _ trace => changes trace = 0).
Proof.
  unfold DogTag.list, DogTag.getInstance, catch_expected,
    Helpers.getDecrypted, Helpers.withErrHandling.
  post_steps; try reflexivity.
  all: rewrite search_fuse; reflexivity.
Qed.

(** An initialized document has version 1 and a history of one change. *)
Lemma init_rule :
  post DogTag.init
    (fun o _ =>
       forall d, o = Returned d ->
         Doc.version (Automerge.state d) = 1%Z /\
         Doc.secrets (Automerge.state d) = [] /\
         Automerge.history d = [js "Initialize"]).
Proof.
  unfold DogTag.init. post_steps.
  intros d H. inversion H; subst. auto.
Qed.

End Rules.

(** ** The operations, forwards *)

Section Operations.

Context {ext : Externals}.

Lemma after_after {A} t1 t2 (r : option (outcome A * list observed * list answer)) :
  after t1 (after t2 r) = after (t1 ++ t2) r.
Proof. destruct r as [[[o tr] rest]|]; simpl; [rewrite app_assoc|]; reflexivity. Qed.

(** Decryption and parsing succeed: the operation holds the instance. *)
Lemma getInstance_run strOrPath plain instance rest :
  run (DogTag.getInstance strOrPath) (AStr plain :: ADoc instance :: rest) =
  Some (Returned (Output instance),
        loading strOrPath plain instance, rest).
Proof. reflexivity. Qed.

(** [delete] up to the end of the search. *)
Lemma delete_run_search a b q plain instance script target trace rest :
  forallb truthy [a; b; q] = true ->
  run (DogTag.getSingleFromList (Doc.secrets (Automerge.state instance))
         (or_empty q) DogTag.tags_options) script =
    Some (Returned (Output target), trace, rest) ->
  run (DogTag.delete a b q) (AStr plain :: ADoc instance :: script) =
  after (loading a plain instance ++ trace)
    (run (catch_expected
            match target with
            | None => Ret (Error (ErrValue (js "No result found for search")))
            | Some toDelete => DogTag.delete_located instance toDelete
            end) rest).
Proof.
  intros Hargs Hsearch. unfold DogTag.delete, Helpers.assert.
  rewrite Hargs. cbn [bind]. unfold catch_expected.
  rewrite (run_try_bind _ _ _ _ instance (loading a plain instance) script)
    by (apply run_withErrHandling, getInstance_run).
  rewrite (run_try_bind _ _ _ _ target trace rest)
    by (apply run_withErrHandling, Hsearch).
  apply after_after.
Qed.

(** [update] up to the end of the search. *)
Lemma update_run_search a b q plain instance script target trace rest :
  forallb truthy [a; b] = true ->
  run (DogTag.getSingleFromList (Doc.secrets (Automerge.state instance))
         (or_empty q) DogTag.tags_options) script =
    Some (Returned (Output target), trace, rest) ->
  run (DogTag.update a b q) (AStr plain :: ADoc instance :: script) =
  after (loading a plain instance ++ trace)
    (run (catch_expected
            match target with
            | None => Ret (Output (inl (js "No result found for search")))
            | Some toUpdate => DogTag.update_located instance toUpdate
            end) rest).
Proof.
  intros Hargs Hsearch. unfold DogTag.update, Helpers.assert.
  rewrite Hargs. cbn [bind]. unfold catch_expected.
  rewrite (run_try_bind _ _ _ _ instance (loading a plain instance) script)
    by (apply run_withErrHandling, getInstance_run).
  rewrite (run_try_bind _ _ _ _ target trace rest)
    by (apply run_withErrHandling, Hsearch).
  apply after_after.
Qed.

(** The two confirmations, reply by reply. *)
Lemma delete_located_run instance toDelete ts script :
  prop toDelete "tags" = VArr ts ->
  let slug := join (js ", ") ts in
  let sure := ObsConfirm (DogTag.areYouSure_message slug) in
  let really := ObsConfirm (DogTag.areYouReallySure_message slug) in
  let cancelled : outcome (result Automerge.doc) :=
    Returned (Error (ErrValue (js "Delete cancelled"))) in
  let raised (e : exn) : outcome (result Automerge.doc) :=
    if Bounce_isSystem e then Thrown e else Returned (Error e) in
  let deleted :=
    Automerge.change instance (DogTag.delete_message slug)
      (DogTag.delete_mutator instance toDelete) in
  run (catch_expected (DogTag.delete_located instance toDelete)) script =
  match script with
  | ABool false :: rest => Some (cancelled, [sure], rest)
  | AThrow e :: rest => Some (raised e, [sure], rest)
  | ABool true :: ABool false :: rest => Some (cancelled, [sure; really], rest)
  | ABool true :: AThrow e :: rest => Some (raised e, [sure; really], rest)
  | ABool true :: ABool true :: rest =>
      Some (Returned (Output deleted),
            [sure; really; ObsChange instance (DogTag.delete_message slug) deleted],
            rest)
  | _ => None
  end.
Proof.
  intros Htags. unfold DogTag.delete_located, catch_expected.
  rewrite Htags. simpl.
  destruct script as [|[e| |[|]| | |] script]; simpl; try reflexivity.
  - destruct (Bounce_isSystem e); reflexivity.
  - destruct script as [|[e| |[|]| | |] script]; simpl; try reflexivity.
    destruct (Bounce_isSystem e); reflexivity.
Qed.

Lemma changes_app t1 t2 : changes (t1 ++ t2) = changes t1 + changes t2.
Proof. unfold changes. now rewrite filter_app, length_app. Qed.

(** Whatever the search answers, finding the target performs no
    mutation. *)
Lemma located_reads a plain instance (list : list object) query opts script
    o trace rest :
  run (DogTag.getSingleFromList list query opts) script = Some (o, trace, rest) ->
  changes (loading a plain instance ++ trace) = 0.
Proof.
  intros H. rewrite changes_app.
  now rewrite (quiet_changes _
                 (post_run _ _ _ _ _ _ (getSingleFromList_quiet list query opts) H)).
Qed.

Lemma delete_not_found a b q plain instance rest :
  Fuse_search (Doc.secrets (Automerge.state instance)) DogTag.tags_options
    (or_empty q) = [] ->
  forallb truthy [a; b; q] = true ->
  run (DogTag.delete a b q) (AStr plain :: ADoc instance :: rest) =
  Some (Returned (Error (ErrValue (js "No result found for search"))),
        loading a plain instance, rest).
Proof.
  intros Hnone Hargs.
  rewrite (delete_run_search a b q plain instance rest None [] rest Hargs)
    by (now apply getSingleFromList_none).
  reflexivity.
Qed.

Lemma update_not_found a b q plain instance rest :
  Fuse_search (Doc.secrets (Automerge.state instance)) DogTag.tags_options
    (or_empty q) = [] ->
  forallb truthy [a; b] = true ->
  run (DogTag.update a b q) (AStr plain :: ADoc instance :: rest) =
  Some (Returned (Output (inl (js "No result found for search"))),
        loading a plain instance, rest).
Proof.
  intros Hnone Hargs.
  rewrite (update_run_search a b q plain instance rest None [] rest Hargs)
    by (now apply getSingleFromList_none).
  reflexivity.
Qed.

End Operations.

(** ** The tags of a new entry *)

Section Tags.

Context {ext : Externals}.

Lemma ends_with_separator_last s :
  ends_with_separator s = is_separator (last s 0%N).
Proof.
  unfold ends_with_separator.
  destruct (rev s) as [|c r] eqn:E.
  - apply (f_equal (@rev N)) in E. rewrite rev_involutive in E. now subst.
  - apply (f_equal (@rev N)) in E. rewrite rev_involutive in E. subst s.
    simpl. now rewrite last_last.
Qed.

Lemma last_default {A} (l : list A) d d' : l <> [] -> last l d = last l d'.
Proof.
  induction l as [|x l IH]; [congruence|]. intros _.
  destruct l as [|y l]; [reflexivity|].
  change (last (y :: l) d = last (y :: l) d'). apply IH. discriminate.
Qed.

(** A property of every element, said of the first, of the last and of
    those in between. *)
Lemma Forall_ends {A} (P : A -> Prop) (l : list A) d :
  l <> [] ->
  (Forall P l <-> P (hd d l) /\ P (last l d) /\ Forall P (removelast (tl l))).
Proof.
  destruct l as [|x l]; [congruence|]. intros _. cbn [hd tl].
  destruct l as [|y l].
  - simpl. split.
    + intros H. inversion H; subst. auto.
    + intros (H & _ & _). auto.
  - change (last (x :: y :: l) d) with (last (y :: l) d).
    assert (E : y :: l = removelast (y :: l) ++ [last (y :: l) d])
      by (apply app_removelast_last; discriminate).
    split.
    + intros H. inversion H as [|? ? Hx Hrest]; subst.
      rewrite E in Hrest. apply Forall_app in Hrest as [Hmid Hlast].
      inversion Hlast; subst. auto.
    + intros (Hx & Hlast & Hmid). constructor; [exact Hx|].
      rewrite E. apply Forall_app. auto.
Qed.

(** The pieces of an input: which of them can be empty. *)
Lemma getTagsFromString_pieces (str : jsstring) :
  let tags := getTagsFromString str in
  tags <> [] /\
  Forall (fun t => separator_free t = true) tags /\
  Forall (fun t => t <> []) (removelast (tl tags)) /\
  (hd [] tags = [] <-> str = [] \/ starts_with_separator str = true) /\
  (last tags [] = [] <-> str = [] \/ ends_with_separator str = true).
Proof.
  unfold getTagsFromString. refine (conj _ (conj _ (conj _ (conj _ _)))).
  - apply split_nonempty.
  - apply split_separator_free.
  - apply split_interior.
  - apply split_first.
  - rewrite ends_with_separator_last, <- (split_last false).
    rewrite (last_default _ [] [0%N]) by apply split_nonempty.
    reflexivity.
Qed.

(** [add], when both arguments are given and every call succeeds. *)
Lemma add_run a b localTag plain instance tagsInput secret id rest :
  forallb truthy [Some localTag; b] = true ->
  let tags := getTagsFromString tagsInput in
  let message := DogTag.add_message (join (js ", ") tags) in
  let added :=
    Automerge.change instance message
      (DogTag.add_mutator instance tags secret id) in
  run (DogTag.add a b)
    (AStr localTag :: AStr plain :: ADoc instance :: AStr tagsInput ::
     AStr secret :: AStr id :: rest) =
  Some (Returned (Output added),
        [ObsGetDecrypted a; ObsGetDecrypted (Some localTag);
         ObsLoad plain (inr instance);
         ObsPrompt (js "Enter tags to find this secret later");
         ObsPrompt (js "Enter secret"); ObsUuid;
         ObsChange instance message added],
        rest).
Proof.
  intros Hargs. unfold DogTag.add, Helpers.assert, Helpers.getDecrypted.
  cbn [trigger bind run respond]. rewrite Hargs. reflexivity.
Qed.

End Tags.

(** ** [update] and [delete] on a located entry *)

Section Located.

Context {ext : Externals}.

Lemma obj_lookup_in (o : object) k v :
  NoDup (map fst o) -> In (k, v) o -> obj_lookup o k = Some v.
Proof.
  induction o as [|[k0 w] o IH]; simpl; [tauto|].
  intros Hnd [E|Hin]; inversion Hnd as [|? ? Hnotin Hnd']; subst.
  - inversion E; subst. now rewrite jseqb_refl.
  - destruct (jseqb_spec k0 k) as [->|_]; [|auto].
    elim Hnotin. apply in_map_iff. now exists (k, v).
Qed.

(** The form can be built for an entry whose tags are a sequence. *)
Lemma form_choices_defined (toUpdate : object) ts :
  NoDup (map fst toUpdate) ->
  prop toUpdate "tags" = VArr ts ->
  exists choices, DogTag.form_choices toUpdate = inr choices.
Proof.
  intros Hnd Htags.
  assert (Hall : forall v, In (js "tags", v) toUpdate -> v = VArr ts).
  { intros v Hin. apply (obj_lookup_in _ _ _ Hnd) in Hin.
    unfold prop in Htags. rewrite Hin in Htags. exact Htags. }
  clear Hnd Htags. unfold DogTag.form_choices, Object_entries.
  induction toUpdate as [|[k v] o IH]; simpl.
  - eauto.
  - destruct IH as [rest Hrest]; [intros w Hw; apply Hall; now right|].
    destruct (negb (JsString.eqb k (js "id")) &&
              negb (JsString.eqb k (js "isDoggo"))); [|eauto].
    cbn [map_throwing]. unfold DogTag.form_choice at 1.
    destruct (jseqb_spec k (js "tags")) as [->|_]; cbn [negb].
    + rewrite (Hall v (or_introl eq_refl)). simpl. rewrite Hrest. eauto.
    + rewrite Hrest. eauto.
Qed.

(** The form and the change, when the form and the clock answer and the
    draft takes the copy. *)
Lemma update_located_run instance toUpdate ts choices edited now rest :
  DogTag.form_choices toUpdate = inr choices ->
  prop toUpdate "tags" = VArr ts ->
  DogTag.keeps_document_array toUpdate edited = false ->
  let message := DogTag.update_message (join (js ", ") ts) in
  let updated :=
    Automerge.change instance message
      (DogTag.update_mutator instance toUpdate edited now) in
  run (catch_expected (DogTag.update_located instance toUpdate))
    (AObj edited :: ANum now :: rest) =
  Some (Returned (Output (inr updated)),
        [ObsForm (js "Editing '" ++ join (js ",") ts ++ js "'") choices;
         ObsNow; ObsChange instance message updated],
        rest).
Proof.
  intros Hchoices Htags Htakes.
  unfold DogTag.update_located, DogTag.accepts_copy, catch_expected.
  rewrite Hchoices, Htags. cbn -[DogTag.keeps_document_array].
  rewrite Htakes. reflexivity.
Qed.

(** The draft refuses a copy that holds an array of the document: [update]
    throws after the form, before the clock is read, and makes no change. *)
Lemma update_located_refused instance toUpdate ts choices edited rest :
  DogTag.form_choices toUpdate = inr choices ->
  prop toUpdate "tags" = VArr ts ->
  DogTag.keeps_document_array toUpdate edited = true ->
  run (catch_expected (DogTag.update_located instance toUpdate))
    (AObj edited :: rest) =
  Some (Thrown Automerge.TypeError_owned,
        [ObsForm (js "Editing '" ++ join (js ",") ts ++ js "'") choices],
        rest).
Proof.
  intros Hchoices Htags Hkeeps.
  unfold DogTag.update_located, DogTag.accepts_copy, catch_expected.
  rewrite Hchoices, Htags. cbn -[DogTag.keeps_document_array].
  rewrite Hkeeps. reflexivity.
Qed.


(** An entry whose tags are not a sequence, a string for instance, cannot be
    rendered: [delete] throws the [TypeError] before its first prompt. *)
Lemma delete_located_unrendered instance toDelete script :
  (forall ts, prop toDelete "tags" <> VArr ts) ->
  run (catch_expected (DogTag.delete_located instance toDelete)) script =
  Some (Thrown TypeError_join, [], script).
Proof.
  intros Htags. unfold DogTag.delete_located, catch_expected.
  destruct (prop toDelete "tags") as [| | |ts]; try reflexivity.
  now elim (Htags ts).
Qed.

End Located.

(** ** Versions along a lineage *)

Section Versions.

Context {ext : Externals}.

Lemma change_rule_weaken keeps o : change_rule keeps o -> change_rule false o.
Proof.
  destruct o; simpl; auto. intros (H1 & H2 & _).
  repeat split; auto. discriminate.
Qed.

(** Every change that a mutating operation shows obeys the rule. *)
Lemma commits_rule d d' :
  commits d d' ->
  exists m,
    Automerge.history d' = Automerge.history d ++ [m] /\
    Doc.version (Automerge.state d') =
      (Z.of_nat (List.length (Automerge.history d)) + 1)%Z.
Proof.
  intros (a & b & c & script & trace & rest & m & Hin & Hrun).
  assert (Hall : Forall (change_rule false) trace).
  { destruct Hrun as [[o H]|[[o H]|[o H]]].
    - destruct (post_run _ _ _ _ _ _ (add_rule a b) H) as [Hall _].
      eapply Forall_impl; [|exact Hall]. intros; eapply change_rule_weaken; eauto.
    - destruct (post_run _ _ _ _ _ _ (delete_rule a b c) H) as [Hall _].
      eapply Forall_impl; [|exact Hall]. intros; eapply change_rule_weaken; eauto.
    - exact (proj1 (post_run _ _ _ _ _ _ (update_rule a b c) H)). }
  rewrite Forall_forall in Hall. specialize (Hall _ Hin).
  destruct Hall as (H1 & H2 & _). eauto.
Qed.

(** Along a lineage the version is the length of the history. *)
Lemma lineage_version d :
  lineage d ->
  Doc.version (Automerge.state d) = Z.of_nat (List.length (Automerge.history d)).
Proof.
  induction 1 as [script d trace rest Hrun | d d' _ IH Hcommit].
  - destruct (post_run _ _ _ _ _ _ init_rule Hrun d eq_refl) as (Hv & _ & Hh).
    rewrite Hv, Hh. reflexivity.
  - destruct (commits_rule d d' Hcommit) as (m & Hh & Hv).
    rewrite Hv, Hh, length_app. cbn [List.length]. lia.
Qed.

End Versions.

(** * The claims *)

(** C1.  Two-stage confirmation of [delete].  Once the search has given a
    target entry (whose tags are a sequence, as the data model has them),
    finding it has performed no mutation, and: declining the first
    confirmation ends the operation with the result
    [{ error: 'Delete cancelled' }], the only prompt shown after the search
    being the first one, and no mutation is performed; accepting the first
    and declining the second gives the same result, again with no mutation;
    accepting both performs the change of the instance by the deletion,
    once; and no finished run of the invocation performs a mutation unless
    both confirmations were answered yes, nor ever more than one. *)
Theorem delete_two_stage_confirmation {ext : Externals}
    a b q plain instance script trace rest toDelete ts :
  forallb truthy [a; b; q] = true ->
  run (DogTag.getSingleFromList (Doc.secrets (Automerge.state instance))
         (or_empty q) DogTag.tags_options) script =
    Some (Returned (Output (Some toDelete)), trace, rest) ->
  prop toDelete "tags" = VArr ts ->
  let slug := join (js ", ") ts in
  let sure := ObsConfirm (DogTag.areYouSure_message slug) in
  let really := ObsConfirm (DogTag.areYouReallySure_message slug) in
  let cancelled : outcome (result Automerge.doc) :=
    Returned (Error (ErrValue (js "Delete cancelled"))) in
  let deleted :=
    Automerge.change instance (DogTag.delete_message slug)
      (DogTag.delete_mutator instance toDelete) in
  let located := loading a plain instance ++ trace in
  let invocation :=
    run (DogTag.delete a b q) (AStr plain :: ADoc instance :: script) in
  (forall rest', rest = ABool false :: rest' ->
     invocation = Some (cancelled, located ++ [sure], rest') /\
     changes (located ++ [sure]) = 0) /\
  (forall rest', rest = ABool true :: ABool false :: rest' ->
     invocation = Some (cancelled, located ++ [sure; really], rest') /\
     changes (located ++ [sure; really]) = 0) /\
  (forall rest', rest = ABool true :: ABool true :: rest' ->
     let mutation := ObsChange instance (DogTag.delete_message slug) deleted in
     invocation =
       Some (Returned (Output deleted), located ++ [sure; really; mutation], rest') /\
     changes (located ++ [sure; really; mutation]) = 1) /\
  (forall o trace' rest', invocation = Some (o, trace', rest') ->
     changes trace' <= 1 /\
     (changes trace' = 1 -> exists r, rest = ABool true :: ABool true :: r)).
Proof.
  intros Hargs Hsearch Htags slug sure really cancelled deleted located invocation.
  assert (Hloc : changes located = 0) by (eapply located_reads; exact Hsearch).
  assert (Hinv : invocation =
                 after located
                   (run (catch_expected (DogTag.delete_located instance toDelete)) rest))
    by (exact (delete_run_search a b q plain instance script (Some toDelete)
                 trace rest Hargs Hsearch)).
  rewrite (delete_located_run instance toDelete ts rest Htags) in Hinv.
  fold slug sure really deleted in Hinv.
  clearbody located invocation.
  refine (conj _ (conj _ (conj _ _))).
  - intros rest' ->. split; [exact Hinv | now rewrite changes_app, Hloc].
  - intros rest' ->. split; [exact Hinv | now rewrite changes_app, Hloc].
  - intros rest' ->. split; [exact Hinv | now rewrite changes_app, Hloc].
  - intros o trace' rest' H. rewrite Hinv in H.
    subst sure really deleted cancelled.
    destruct rest as [|[e| |[|]| | |] rest0]; simpl in H; try discriminate H;
      [ | destruct rest0 as [|[e'| |[|]| | |] rest1]; simpl in H;
          try discriminate H | ];
      inversion H; subst; rewrite changes_app, Hloc; cbn;
      (split; [lia | try discriminate; eauto]).
Qed.

Lemma delete_two_stage_confirmation_witness :
  forallb truthy [Some (js "secrets.gpg"); Some (js "key"); Some (js "work")] = true /\
  (exists trace,
     run (@DogTag.delete exact_matcher
            (Some (js "secrets.gpg")) (Some (js "key")) (Some (js "work")))
         [AStr (js "saved"); ADoc sample_doc; ABool false; ABool true] =
       Some (Returned (Error (ErrValue (js "Delete cancelled"))), trace,
             [ABool true]) /\
     changes trace = 0) /\
  (exists deleted trace,
     run (@DogTag.delete exact_matcher
            (Some (js "secrets.gpg")) (Some (js "key")) (Some (js "work")))
         [AStr (js "saved"); ADoc sample_doc; ABool true; ABool true] =
       Some (Returned (Output deleted), trace, []) /\
     changes trace = 1 /\
     Doc.secrets (Automerge.state deleted) = []).
Proof.
  split; [reflexivity|]. split.
  - destruct (@delete_two_stage_confirmation exact_matcher
                (Some (js "secrets.gpg")) (Some (js "key")) (Some (js "work"))
                (js "saved") sample_doc [ABool false; ABool true] []
                [ABool false; ABool true] work_entry [js "email"; js "work"]
                eq_refl eq_refl eq_refl) as (H & _).
    destruct (H [ABool true] eq_refl) as [Hrun Hchanges].
    eexists; split; [exact Hrun | exact Hchanges].
  - destruct (@delete_two_stage_confirmation exact_matcher
                (Some (js "secrets.gpg")) (Some (js "key")) (Some (js "work"))
                (js "saved") sample_doc [ABool true; ABool true] []
                [ABool true; ABool true] work_entry [js "email"; js "work"]
                eq_refl eq_refl eq_refl) as (_ & _ & H & _).
    destruct (H [] eq_refl) as [Hrun Hchanges].
    eexists; eexists; split; [exact Hrun|].
    split; [exact Hchanges | reflexivity].
Defined.

(** C2.  When the search yields no candidate, [delete] and [update] end by
    returning a result that carries the text 'No result found for search'
    ([delete] in its [error] field, [update] in its [output] field); nothing
    is thrown, and the run consists of the two calls that gave the instance:
    no mutation is performed. *)
Theorem not_found_is_a_result {ext : Externals} a b q plain instance rest :
  Fuse_search (Doc.secrets (Automerge.state instance)) DogTag.tags_options
    (or_empty q) = [] ->
  (forallb truthy [a; b; q] = true ->
   run (DogTag.delete a b q) (AStr plain :: ADoc instance :: rest) =
   Some (Returned (Error (ErrValue (js "No result found for search"))),
         loading a plain instance, rest)) /\
  (forallb truthy [a; b] = true ->
   run (DogTag.update a b q) (AStr plain :: ADoc instance :: rest) =
   Some (Returned (Output (inl (js "No result found for search"))),
         loading a plain instance, rest)) /\
  changes (loading a plain instance) = 0.
Proof.
  intros Hnone. repeat split.
  - now apply delete_not_found.
  - now apply update_not_found.
Qed.

Lemma not_found_is_a_result_witness :
  run (@DogTag.delete exact_matcher
         (Some (js "secrets.gpg")) (Some (js "key")) (Some (js "bank")))
      [AStr (js "saved"); ADoc sample_doc] =
    Some (Returned (Error (ErrValue (js "No result found for search"))),
          loading (Some (js "secrets.gpg")) (js "saved") sample_doc, []) /\
  run (@DogTag.update exact_matcher
         (Some (js "secrets.gpg")) (Some (js "key")) (Some (js "bank")))
      [AStr (js "saved"); ADoc sample_doc] =
    Some (Returned (Output (inl (js "No result found for search"))),
          loading (Some (js "secrets.gpg")) (js "saved") sample_doc, []).
Proof.
  destruct (@not_found_is_a_result exact_matcher
              (Some (js "secrets.gpg")) (Some (js "key")) (Some (js "bank"))
              (js "saved") sample_doc [] eq_refl) as (Hdelete & Hupdate & _).
  split; [exact (Hdelete eq_refl) | exact (Hupdate eq_refl)].
Defined.

(** Supporting C6: the resolution of a single target, [getSingleFromList],
    on candidates whose tags are sequences, as [add] stores them.  When the
    search ranks more than one candidate, every finished run shows exactly
    one call, the selection prompt whose choices are the candidates' tags
    joined with ', ', in the order of the ranking, and has consumed a reply
    to it; the entry returned is the one looked up from that reply.  When
    exactly one candidate matches, it is returned with no call at all.  When
    none matches, the step returns [undefined] with no call, and [delete]
    and [update], given that, report 'No result found for search' and stop
    without a mutation. *)
Theorem single_target_resolution {ext : Externals}
    (list : list object) (query : jsstring) (opts : options) :
  let results := Fuse_search list opts query in
  let resolution := DogTag.getSingleFromList list query opts in
  (forall tagss,
     1 < List.length results ->
     Forall2 (fun r ts => prop r "tags" = VArr ts) results tagss ->
     let prompt :=
       ObsSelect (js "Choose from the list") (map (join (js ", ")) tagss) in
     (forall script o trace rest,
        run resolution script = Some (o, trace, rest) ->
        trace = [prompt] /\ exists reply, script = reply :: rest) /\
     (forall chosen rest,
        run resolution (AStr chosen :: rest) =
        Some (chosen_outcome chosen list, [prompt], rest))) /\
  (forall r, results = [r] ->
     forall script,
       run resolution script = Some (Returned (Output (Some r)), [], script)) /\
  (results = [] ->
     (forall script,
        run resolution script = Some (Returned (Output None), [], script)) /\
     (forall a b q plain instance rest,
        list = Doc.secrets (Automerge.state instance) ->
        query = or_empty q -> opts = DogTag.tags_options ->
        (forallb truthy [a; b; q] = true ->
         run (DogTag.delete a b q) (AStr plain :: ADoc instance :: rest) =
         Some (Returned (Error (ErrValue (js "No result found for search"))),
               loading a plain instance, rest)) /\
        (forallb truthy [a; b] = true ->
         run (DogTag.update a b q) (AStr plain :: ADoc instance :: rest) =
         Some (Returned (Output (inl (js "No result found for search"))),
               loading a plain instance, rest)) /\
        changes (loading a plain instance) = 0)).
Proof.
  intros results resolution. subst results resolution.
  refine (conj _ (conj _ _)).
  - intros tagss Hlen Htags prompt. split.
    + intros script o trace rest H.
      rewrite (getSingleFromList_many list query opts tagss script Hlen Htags) in H.
      destruct script as [|[e|chosen| | | |] script]; try discriminate H;
        inversion H; subst; eauto.
    + intros chosen rest.
      now rewrite (getSingleFromList_many list query opts tagss _ Hlen Htags).
  - intros r Hone script. now apply getSingleFromList_one.
  - intros Hnone. split.
    + intros script. now apply getSingleFromList_none.
    + intros a b q plain instance rest -> -> ->. repeat split.
      * now apply delete_not_found.
      * now apply update_not_found.
Qed.

Lemma single_target_resolution_witness :
  (* two candidates: the prompt, then the lookup of the reply *)
  run (@DogTag.getSingleFromList exact_matcher
         [twin_a; twin_b] (js "work") DogTag.tags_options)
      [AStr (js "work")] =
    Some (Returned (Output (Some twin_a)),
          [ObsSelect (js "Choose from the list") [js "work"; js "work"]], []) /\
  (* one candidate: no prompt *)
  run (@DogTag.getSingleFromList exact_matcher
         [work_entry] (js "email") DogTag.tags_options)
      [AStr (js "unused")] =
    Some (Returned (Output (Some work_entry)), [], [AStr (js "unused")]) /\
  (* no candidate *)
  run (@DogTag.getSingleFromList exact_matcher
         [work_entry] (js "bank") DogTag.tags_options) [] =
    Some (Returned (Output None), [], []) /\
  run (@DogTag.delete exact_matcher
         (Some (js "secrets.gpg")) (Some (js "key")) (Some (js "bank")))
      [AStr (js "saved"); ADoc sample_doc] =
    Some (Returned (Error (ErrValue (js "No result found for search"))),
          loading (Some (js "secrets.gpg")) (js "saved") sample_doc, []).
Proof.
  refine (conj _ (conj _ (conj _ _))).
  - destruct (@single_target_resolution exact_matcher
                [twin_a; twin_b] (js "work") DogTag.tags_options) as (Hmany & _).
    assert (Hlen : 1 < 2) by (apply Nat.lt_succ_diag_r).
    assert (Htags : Forall2 (fun (r : object) ts => prop r "tags" = VArr ts)
                      [twin_a; twin_b] [[js "work"]; [js "work"]])
      by (repeat constructor).
    destruct (Hmany [[js "work"]; [js "work"]] Hlen Htags) as (_ & Hrun).
    exact (Hrun (js "work") []).
  - destruct (@single_target_resolution exact_matcher
                [work_entry] (js "email") DogTag.tags_options) as (_ & Hone & _).
    exact (Hone work_entry eq_refl [AStr (js "unused")]).
  - destruct (@single_target_resolution exact_matcher
                [work_entry] (js "bank") DogTag.tags_options) as (_ & _ & Hnone).
    destruct (Hnone eq_refl) as (Hrun & _).
    exact (Hrun []).
  - destruct (@single_target_resolution exact_matcher
                [work_entry] (js "bank") DogTag.tags_options) as (_ & _ & Hnone).
    destruct (Hnone eq_refl) as (_ & Hcallers).
    destruct (Hcallers (Some (js "secrets.gpg")) (Some (js "key"))
                (Some (js "bank")) (js "saved") sample_doc []
                eq_refl eq_refl eq_refl) as (Hdelete & _).
    exact (Hdelete eq_refl).
Defined.

(** Supporting C6: a candidate whose tags are not a sequence cannot be
    rendered; with more than one candidate the step throws the [TypeError]
    of the rendering and shows no prompt. *)
Lemma map_slugify_unrendered (results : list object) :
  Exists (fun r => forall ts, prop r "tags" <> VArr ts) results ->
  map_throwing (fun r => slugifyTags (prop r "tags")) results =
  inl TypeError_join.
Proof.
  induction results as [|r results IH]; intros H; [inversion H|].
  cbn [map_throwing].
  destruct (prop r "tags") as [| | |ts] eqn:Htags; try reflexivity.
  cbn [slugifyTags]. rewrite IH; [reflexivity|].
  inversion H as [? ? Hr|? ? Hrest]; subst; [|exact Hrest].
  now elim (Hr ts).
Qed.

Lemma getSingleFromList_unrendered {ext : Externals}
    (list : list object) query opts script :
  1 < List.length (Fuse_search list opts query) ->
  Exists (fun r => forall ts, prop r "tags" <> VArr ts)
    (Fuse_search list opts query) ->
  run (DogTag.getSingleFromList list query opts) script =
  Some (Thrown TypeError_join, [], script).
Proof.
  intros Hlen Hbad. unfold DogTag.getSingleFromList.
  rewrite search_fuse. simpl.
  apply Nat.ltb_lt in Hlen. rewrite Hlen.
  rewrite (map_slugify_unrendered _ Hbad). reflexivity.
Qed.

(** C6.  The code against the claim.  [pair_doc] holds [work_entry], under
    'email' and 'work', and an entry under 'work'.  [update], for the query
    'email', shows the form for [work_entry]; the tags are edited to 'work'
    and the form gives its fields back as strings; [update] returns
    [pair_doc_updated], whose first entry has the string 'work' for tags.  On
    the entries of that document the query 'work' has two candidates, and
    the resolution step throws the [TypeError] of the rendering without
    showing the selection prompt, whatever the replies; so does [delete]. *)
Theorem resolution_throws_on_updated_entry :
  run (@DogTag.update string_matcher
         (Some (js "secrets.gpg")) (Some (js "key")) (Some (js "email")))
      [AStr (js "saved"); ADoc pair_doc; AObj retagged_reply; ANum 2000] =
    Some (Returned (Output (inr pair_doc_updated)),
          loading (Some (js "secrets.gpg")) (js "saved") pair_doc ++
          [ObsForm (js "Editing 'email,work'")
             [(js "tags", VStr (js "email, work")); (js "secret", VStr (js "p@ss"))];
           ObsNow;
           ObsChange pair_doc (js "Update 'email, work'") pair_doc_updated],
          []) /\
  Doc.secrets (Automerge.state pair_doc_updated) =
    [[(js "tags", VStr (js "work")); (js "secret", VStr (js "p@ss"));
      (js "id", VStr (js "id-1"))];
     twin_a] /\
  List.length
    (@Fuse_search string_matcher
       (Doc.secrets (Automerge.state pair_doc_updated))
       DogTag.tags_options (js "work")) = 2 /\
  (forall script,
     run (@DogTag.getSingleFromList string_matcher
            (Doc.secrets (Automerge.state pair_doc_updated))
            (js "work") DogTag.tags_options) script =
     Some (Thrown TypeError_join, [], script)) /\
  (forall script,
     run (@DogTag.delete string_matcher
            (Some (js "secrets.gpg")) (Some (js "key")) (Some (js "work")))
         (AStr (js "saved") :: ADoc pair_doc_updated :: script) =
     Some (Thrown TypeError_join,
           loading (Some (js "secrets.gpg")) (js "saved") pair_doc_updated,
           script)).
Proof.
  refine (conj eq_refl (conj eq_refl (conj eq_refl (conj _ _)))).
  - intros script. reflexivity.
  - intros script. reflexivity.
Qed.

(** Supporting C10: where the candidates, and the items of the list up to
    the first of the two entries, have sequences for tags.  With several
    candidates, the entry returned is looked up in the
    full list by equality of the reply with the joined tags of the items.
    So when two distinct entries of the list carry the same tags and both are
    candidates, selecting either of them gives the same reply, and the step
    returns the first of them, it being the first item of the list that
    renders as that reply. *)
Theorem same_tags_resolve_to_first {ext : Externals}
    (before between behind : list object) (first second : object)
    (ts : list jsstring) (query : jsstring) (opts : options)
    (tagss : list (list jsstring)) :
  let list := before ++ first :: between ++ second :: behind in
  let results := Fuse_search list opts query in
  let prompt :=
    ObsSelect (js "Choose from the list") (map (join (js ", ")) tagss) in
  prop first "tags" = VArr ts ->
  prop second "tags" = VArr ts ->
  first <> second ->
  In first results -> In second results ->
  Forall2 (fun r ts' => prop r "tags" = VArr ts') results tagss ->
  Forall (fun it => exists ts', prop it "tags" = VArr ts' /\
                                join (js ", ") ts' <> join (js ", ") ts) before ->
  (forall chosen rest,
     run (DogTag.getSingleFromList list query opts) (AStr chosen :: rest) =
     Some (chosen_outcome chosen list, [prompt], rest)) /\
  (forall picked, In picked [first; second] ->
     exists rendering,
       slugifyTags (prop picked "tags") = inr rendering /\
       forall rest,
         run (DogTag.getSingleFromList list query opts) (AStr rendering :: rest) =
         Some (Returned (Output (Some first)), [prompt], rest)).
Proof.
  intros list results prompt Hfirst Hsecond Hdistinct Hin1 Hin2 Htags Hbefore.
  assert (Hlen : 1 < List.length results)
    by (exact (two_in_length first second results Hin1 Hin2 Hdistinct)).
  assert (Hrun : forall chosen rest,
            run (DogTag.getSingleFromList list query opts) (AStr chosen :: rest) =
            Some (chosen_outcome chosen list, [prompt], rest)).
  { intros chosen rest.
    now rewrite (getSingleFromList_many list query opts tagss _ Hlen Htags). }
  split; [exact Hrun|].
  intros picked Hpicked. exists (join (js ", ") ts). split.
  - destruct Hpicked as [<-|[<-|[]]]; [rewrite Hfirst | rewrite Hsecond];
      reflexivity.
  - intros rest. rewrite Hrun. unfold chosen_outcome, list.
    now rewrite (find_first_rendering _ before first _ ts Hbefore Hfirst eq_refl).
Qed.

Lemma same_tags_resolve_to_first_witness :
  exists rendering,
    slugifyTags (prop twin_b "tags") = inr rendering /\
    run (@DogTag.getSingleFromList exact_matcher
           [twin_a; twin_b] (js "work") DogTag.tags_options)
        [AStr rendering] =
    Some (Returned (Output (Some twin_a)),
          [ObsSelect (js "Choose from the list") [js "work"; js "work"]], []).
Proof.
  assert (Hdistinct : twin_a <> twin_b) by discriminate.
  assert (Htags : Forall2 (fun (r : object) ts => prop r "tags" = VArr ts)
                    [twin_a; twin_b] [[js "work"]; [js "work"]])
    by (repeat constructor).
  destruct (@same_tags_resolve_to_first exact_matcher
              [] [] [] twin_a twin_b [js "work"] (js "work") DogTag.tags_options
              [[js "work"]; [js "work"]] eq_refl eq_refl Hdistinct
              (or_introl eq_refl) (or_intror (or_introl eq_refl))
              Htags (Forall_nil _)) as (_ & Hpick).
  destruct (Hpick twin_b (or_intror (or_introl eq_refl))) as (rendering & Hr & Hrun).
  exists rendering. split; [exact Hr | exact (Hrun [])].
Defined.

(** Supporting C10: whatever the matcher, with more than one candidate and
    in front of the list an item whose tags are not a sequence, the step
    returns no entry: the rendering throws, of a candidate before the prompt
    or of that item in the lookup after it. *)
Lemma map_slugify_throws (results : list object) e :
  map_throwing (fun r => slugifyTags (prop r "tags")) results = inl e ->
  e = TypeError_join.
Proof.
  induction results as [|r results IH]; simpl; [discriminate|].
  destruct (prop r "tags"); simpl; try (intros H; inversion H; reflexivity).
  destruct (map_throwing _ results); [|discriminate].
  intros H. inversion H; subst. now apply IH.
Qed.

Lemma lookup_first_unrendered {ext : Externals}
    (item : object) (others : list object) query opts chosen script :
  (forall ts, prop item "tags" <> VArr ts) ->
  1 < List.length (Fuse_search (item :: others) opts query) ->
  exists trace script',
    run (DogTag.getSingleFromList (item :: others) query opts)
      (AStr chosen :: script) =
    Some (Thrown TypeError_join, trace, script').
Proof.
  intros Hitem Hlen. unfold DogTag.getSingleFromList.
  rewrite search_fuse. simpl.
  apply Nat.ltb_lt in Hlen. rewrite Hlen.
  destruct (map_throwing (fun r => slugifyTags (prop r "tags"))
              (Fuse_search (item :: others) opts query)) as [e|joined] eqn:E.
  - apply map_slugify_throws in E. subst e. simpl. eauto.
  - simpl. unfold DogTag.renders_as at 1.
    destruct (prop item "tags") as [| | |ts]; simpl; eauto.
    now elim (Hitem ts).
Qed.

(** C10.  The code against the claim.  [triple_doc] holds [work_entry] in
    front of two distinct entries with the same tags, 'work'.  [update], for
    the query 'email', shows the form for [work_entry], which is sent back as
    it was shown, its fields being strings; [update] returns
    [triple_doc_updated], whose first entry has the string 'email, work' for
    tags.  On the entries of that document the query 'work' has the two
    entries under 'work' as its candidates and the prompt shows them; then,
    whatever is selected, the lookup in the full list throws the [TypeError]
    of the rendering at the first entry: no entry is returned. *)
Theorem lookup_throws_on_updated_entry :
  run (@DogTag.update string_matcher
         (Some (js "secrets.gpg")) (Some (js "key")) (Some (js "email")))
      [AStr (js "saved"); ADoc triple_doc; AObj untouched_reply; ANum 2000] =
    Some (Returned (Output (inr triple_doc_updated)),
          loading (Some (js "secrets.gpg")) (js "saved") triple_doc ++
          [ObsForm (js "Editing 'email,work'")
             [(js "tags", VStr (js "email, work")); (js "secret", VStr (js "p@ss"))];
           ObsNow;
           ObsChange triple_doc (js "Update 'email, work'") triple_doc_updated],
          []) /\
  Doc.secrets (Automerge.state triple_doc_updated) =
    [[(js "tags", VStr (js "email, work")); (js "secret", VStr (js "p@ss"));
      (js "id", VStr (js "id-1"))];
     twin_a; twin_b] /\
  twin_a <> twin_b /\
  prop twin_a "tags" = VArr [js "work"] /\
  prop twin_b "tags" = VArr [js "work"] /\
  @Fuse_search string_matcher
    (Doc.secrets (Automerge.state triple_doc_updated))
    DogTag.tags_options (js "work") = [twin_a; twin_b] /\
  (forall chosen rest,
     run (@DogTag.getSingleFromList string_matcher
            (Doc.secrets (Automerge.state triple_doc_updated))
            (js "work") DogTag.tags_options) (AStr chosen :: rest) =
     Some (Thrown TypeError_join,
           [ObsSelect (js "Choose from the list") [js "work"; js "work"]],
           rest)).
Proof.
  refine (conj eq_refl (conj eq_refl (conj _ (conj eq_refl (conj eq_refl
            (conj eq_refl _)))))).
  - discriminate.
  - intros chosen rest. reflexivity.
Qed.

(** C7 (as amended).  For a tag sequence none of whose tags holds a
    separator (whitespace or comma), splitting the joined form gives the
    sequence back exactly when the sequence is not empty and none of its tags
    other than the first and the last is the empty string; so it does for
    every non-empty sequence of non-empty tags. *)
Theorem tag_round_trip (T : list jsstring) :
  forallb separator_free T = true ->
  ((exists s, slugifyTags (VArr T) = inr s /\ getTagsFromString s = T) <->
   (T <> [] /\ Forall (fun t => t <> []) (removelast (tl T)))).
Proof.
  intros Hsf. split.
  - intros (s & Hs & Hsplit). split.
    + rewrite <- Hsplit. apply split_nonempty.
    + rewrite <- Hsplit. apply split_interior.
  - intros [Hne Hmid]. eexists. split; [reflexivity|].
    now apply split_join.
Qed.

Lemma tag_round_trip_witness :
  exists s,
    slugifyTags (VArr [js "email"; js "work"]) = inr s /\
    getTagsFromString s = [js "email"; js "work"].
Proof.
  apply (proj2 (tag_round_trip [js "email"; js "work"] eq_refl)).
  split; [discriminate | constructor].
Defined.

(** C7, as stated, fails: the empty sequence joins to the empty string, which
    splits into one empty tag; and an empty tag between two others joins
    into one run of separators, which splits at one place only. *)
Lemma tag_round_trip_counterexample :
  (forallb separator_free [] = true /\
   slugifyTags (VArr []) = inr [] /\
   getTagsFromString [] = [[]] /\
   getTagsFromString [] <> []) /\
  (forallb separator_free [js "a"; []; js "b"] = true /\
   slugifyTags (VArr [js "a"; []; js "b"]) = inr (js "a, , b") /\
   getTagsFromString (js "a, , b") = [js "a"; js "b"] /\
   getTagsFromString (js "a, , b") <> [js "a"; []; js "b"]).
Proof.
  repeat split; discriminate.
Qed.

(** C8 (as amended).  [add] splits what was entered for the tags at every
    maximal run of whitespace and commas and stores the pieces as they are,
    removing nothing.  No piece holds a separator, and no piece other than
    the first and the last is empty, so repeated separators make no empty
    tag; the first piece is empty exactly when the input is empty or starts
    with a separator, the last exactly when the input is empty or ends with
    one.  The stored tags therefore hold no empty tag exactly when the input
    is not empty and neither starts nor ends with a separator. *)
Theorem add_tag_normalization {ext : Externals}
    a b localTag plain instance tagsInput secret id rest :
  forallb truthy [Some localTag; b] = true ->
  let tags := getTagsFromString tagsInput in
  let added :=
    Automerge.change instance (DogTag.add_message (join (js ", ") tags))
      (DogTag.add_mutator instance tags secret id) in
  (exists trace,
     run (DogTag.add a b)
       (AStr localTag :: AStr plain :: ADoc instance :: AStr tagsInput ::
        AStr secret :: AStr id :: rest) =
     Some (Returned (Output added), trace, rest)) /\
  Doc.secrets (Automerge.state added) =
    Doc.secrets (Automerge.state instance) ++ [DogTag.new_entry tags secret id] /\
  Forall (fun t => separator_free t = true) tags /\
  Forall (fun t => t <> []) (removelast (tl tags)) /\
  (hd [] tags = [] <-> tagsInput = [] \/ starts_with_separator tagsInput = true) /\
  (last tags [] = [] <-> tagsInput = [] \/ ends_with_separator tagsInput = true) /\
  (Forall (fun t => t <> []) tags <->
   tagsInput <> [] /\ starts_with_separator tagsInput = false /\
   ends_with_separator tagsInput = false).
Proof.
  intros Hargs tags added.
  destruct (getTagsFromString_pieces tagsInput)
    as (Hne & Hsf & Hmid & Hfirst & Hlast).
  fold tags in Hne, Hsf, Hmid, Hfirst, Hlast.
  refine (conj _ (conj _ (conj Hsf (conj Hmid (conj Hfirst (conj Hlast _)))))).
  - eexists. exact (add_run a b localTag plain instance tagsInput secret id rest Hargs).
  - reflexivity.
  - rewrite (Forall_ends _ tags [] Hne), Hfirst, Hlast.
    destruct (starts_with_separator tagsInput), (ends_with_separator tagsInput);
      intuition congruence.
Qed.

Lemma add_tag_normalization_witness :
  exists added trace,
    run (@DogTag.add exact_matcher (Some (js "secrets.gpg")) (Some (js "key")))
      [AStr (js "saved"); AStr (js "saved"); ADoc sample_doc;
       AStr (js "bank,  savings"); AStr (js "1234"); AStr (js "id-2")] =
    Some (Returned (Output added), trace, []) /\
    Doc.secrets (Automerge.state added) =
      [work_entry;
       DogTag.new_entry [js "bank"; js "savings"] (js "1234") (js "id-2")].
Proof.
  destruct (@add_tag_normalization exact_matcher
              (Some (js "secrets.gpg")) (Some (js "key")) (js "saved") (js "saved")
              sample_doc (js "bank,  savings") (js "1234") (js "id-2") [] eq_refl)
    as ((trace & Hrun) & Hsecrets & _).
  eexists; eexists; split; [exact Hrun | exact Hsecrets].
Defined.

(** C8, as stated, fails: a separator in front of the first tag leaves an
    empty tag, which [add] stores. *)
Lemma add_tag_normalization_counterexample :
  getTagsFromString (js " bank") = [[]; js "bank"] /\
  exists added trace,
    run (@DogTag.add exact_matcher (Some (js "secrets.gpg")) (Some (js "key")))
      [AStr (js "saved"); AStr (js "saved"); ADoc sample_doc;
       AStr (js " bank"); AStr (js "1234"); AStr (js "id-2")] =
    Some (Returned (Output added), trace, []) /\
    Doc.secrets (Automerge.state added) =
      [work_entry; DogTag.new_entry [[]; js "bank"] (js "1234") (js "id-2")].
Proof.
  split; [reflexivity|]. eexists; eexists; split; reflexivity.
Qed.



(** C9.  Add, then delete.  [add] appends to [secrets] a new entry under a
    fresh identifier, one that no entry of the document carries; when
    [delete], run on the document so obtained, finds that entry and both
    confirmations are answered yes, the document it returns has the
    [secrets] of the document before the addition.  Its version is one more
    than the version after the addition. *)
Theorem add_then_delete {ext : Externals}
    a b localTag plain D tagsInput secret id rest
    a' b' q plain' script trace rest' :
  let tags := getTagsFromString tagsInput in
  let E := DogTag.new_entry tags secret id in
  let D1 :=
    Automerge.change D (DogTag.add_message (join (js ", ") tags))
      (DogTag.add_mutator D tags secret id) in
  let D2 :=
    Automerge.change D1 (DogTag.delete_message (join (js ", ") tags))
      (DogTag.delete_mutator D1 E) in
  forallb truthy [Some localTag; b] = true ->
  forallb (fun item => negb (strict_eq (prop item "id") (VStr id)))
    (Doc.secrets (Automerge.state D)) = true ->
  forallb truthy [a'; b'; q] = true ->
  run (DogTag.getSingleFromList (Doc.secrets (Automerge.state D1))
         (or_empty q) DogTag.tags_options) script =
    Some (Returned (Output (Some E)), trace, ABool true :: ABool true :: rest') ->
  (exists trace0,
     run (DogTag.add a b)
       (AStr localTag :: AStr plain :: ADoc D :: AStr tagsInput ::
        AStr secret :: AStr id :: rest) =
     Some (Returned (Output D1), trace0, rest)) /\
  Doc.secrets (Automerge.state D1) = Doc.secrets (Automerge.state D) ++ [E] /\
  (exists trace1,
     run (DogTag.delete a' b' q) (AStr plain' :: ADoc D1 :: script) =
     Some (Returned (Output D2), trace1, rest')) /\
  Doc.secrets (Automerge.state D2) = Doc.secrets (Automerge.state D) /\
  Doc.version (Automerge.state D2) = (Doc.version (Automerge.state D1) + 1)%Z.
Proof.
  intros tags E D1 D2 Hadd Hfresh Hdelete Hsearch.
  refine (conj _ (conj eq_refl (conj _ (conj _ _)))).
  - eexists. exact (add_run a b localTag plain D tagsInput secret id rest Hadd).
  - rewrite (delete_run_search a' b' q plain' D1 script (Some E) trace _
               Hdelete Hsearch).
    rewrite (delete_located_run D1 E tags _ eq_refl). simpl. eauto.
  - change (splice (Doc.secrets (Automerge.state D) ++ [E])
              (findIndex (DogTag.same_id E) (Doc.secrets (Automerge.state D) ++ [E]))
              1 [] = Doc.secrets (Automerge.state D)).
    rewrite (findIndex_first (DogTag.same_id E)
               (Doc.secrets (Automerge.state D)) E []).
    + rewrite (splice_at (Doc.secrets (Automerge.state D)) E [] []).
      now rewrite app_nil_r.
    + exact Hfresh.
    + unfold DogTag.same_id, E. cbn. apply jseqb_refl.
  - change ((Z.of_nat (List.length (Automerge.history D ++
                [DogTag.add_message (join (js ", ") tags)])) + 1)%Z =
            (Z.of_nat (List.length (Automerge.history D)) + 1 + 1)%Z).
    rewrite length_app. cbn [List.length]. lia.
Qed.

Lemma add_then_delete_witness :
  exists D1 D2 trace0 trace1,
    run (@DogTag.add exact_matcher (Some (js "secrets.gpg")) (Some (js "key")))
      [AStr (js "saved"); AStr (js "saved"); ADoc sample_doc;
       AStr (js "bank"); AStr (js "1234"); AStr (js "id-2")] =
    Some (Returned (Output D1), trace0, []) /\
    run (@DogTag.delete exact_matcher
           (Some (js "secrets.gpg")) (Some (js "key")) (Some (js "bank")))
      [AStr (js "saved"); ADoc D1; ABool true; ABool true] =
    Some (Returned (Output D2), trace1, []) /\
    Doc.secrets (Automerge.state D2) = Doc.secrets (Automerge.state sample_doc).
Proof.
  destruct (@add_then_delete exact_matcher
              (Some (js "secrets.gpg")) (Some (js "key")) (js "saved") (js "saved")
              sample_doc (js "bank") (js "1234") (js "id-2") []
              (Some (js "secrets.gpg")) (Some (js "key")) (Some (js "bank"))
              (js "saved") [ABool true; ABool true] [] []
              eq_refl eq_refl eq_refl eq_refl)
    as ((trace0 & Hadd) & _ & (trace1 & Hdelete) & Hsecrets & _).
  do 4 eexists. split; [exact Hadd|]. split; [exact Hdelete | exact Hsecrets].
Defined.

(** C4.  Whenever [add], [delete] or [update] returns a document, a change
    was made to the instance the operation had parsed, and the version of
    the new document is the length of the history of that instance, plus
    one.  Along a lineage, which starts from an initialized document and
    goes on by committed changes, each committed change makes the version
    strictly greater. *)
Theorem version_follows_history {ext : Externals} :
  (forall a b c script d' trace rest,
     run (DogTag.add a b) script = Some (Returned (Output d'), trace, rest) \/
     run (DogTag.delete a b c) script = Some (Returned (Output d'), trace, rest) \/
     run (DogTag.update a b c) script =
       Some (Returned (Output (inr d')), trace, rest) ->
     exists plain d m,
       In (ObsLoad plain (inr d)) trace /\
       In (ObsChange d m d') trace /\
       Doc.version (Automerge.state d') =
         (Z.of_nat (List.length (Automerge.getHistory d)) + 1)%Z) /\
  (forall d d',
     lineage d -> commits d d' ->
     (Doc.version (Automerge.state d) < Doc.version (Automerge.state d'))%Z /\
     Doc.version (Automerge.state d') =
       (Z.of_nat (List.length (Automerge.getHistory d)) + 1)%Z).
Proof.
  split.
  - intros a b c script d' trace rest Hrun.
    assert (H : Forall (change_rule false) trace /\
                exists plain d m,
                  In (ObsLoad plain (inr d)) trace /\ In (ObsChange d m d') trace).
    { destruct Hrun as [H|[H|H]].
      - destruct (post_run _ _ _ _ _ _ (add_rule a b) H) as [Hall Hout].
        split; [|exact (Hout d' d' eq_refl eq_refl)].
        eapply Forall_impl; [|exact Hall]. intros; eapply change_rule_weaken; eauto.
      - destruct (post_run _ _ _ _ _ _ (delete_rule a b c) H) as [Hall Hout].
        split; [|exact (Hout d' d' eq_refl eq_refl)].
        eapply Forall_impl; [|exact Hall]. intros; eapply change_rule_weaken; eauto.
      - destruct (post_run _ _ _ _ _ _ (update_rule a b c) H) as [Hall Hout].
        split; [exact Hall | exact (Hout (inr d') d' eq_refl eq_refl)]. }
    destruct H as (Hall & plain & d & m & Hload & Hchange).
    exists plain, d, m. refine (conj Hload (conj Hchange _)).
    rewrite Forall_forall in Hall. exact (proj1 (proj2 (Hall _ Hchange))).
  - intros d d' Hlineage Hcommit.
    destruct (commits_rule d d' Hcommit) as (m & _ & Hv).
    rewrite (lineage_version d Hlineage). unfold Automerge.getHistory.
    split; [lia | exact Hv].
Qed.

Lemma version_follows_history_witness :
  (Doc.version (Automerge.state fresh_doc) <
   Doc.version (Automerge.state first_doc))%Z /\
  Doc.version (Automerge.state first_doc) = 2%Z /\
  exists plain d m,
    In (ObsChange d m first_doc)
       [ObsGetDecrypted (Some (js "secrets.gpg"));
        ObsGetDecrypted (Some (js "saved"));
        ObsLoad (js "saved") (inr fresh_doc);
        ObsPrompt (js "Enter tags to find this secret later");
        ObsPrompt (js "Enter secret"); ObsUuid;
        ObsChange fresh_doc (js "Add 'email, work'") first_doc] /\
    In (ObsLoad plain (inr d))
       [ObsGetDecrypted (Some (js "secrets.gpg"));
        ObsGetDecrypted (Some (js "saved"));
        ObsLoad (js "saved") (inr fresh_doc);
        ObsPrompt (js "Enter tags to find this secret later");
        ObsPrompt (js "Enter secret"); ObsUuid;
        ObsChange fresh_doc (js "Add 'email, work'") first_doc] /\
    Doc.version (Automerge.state first_doc) =
      (Z.of_nat (List.length (Automerge.getHistory d)) + 1)%Z.
Proof.
  assert (Hlineage : @lineage exact_matcher fresh_doc).
  { apply (@lineage_init exact_matcher [AStr (js "doc"); ANum 1000] fresh_doc
             [ObsUuid; ObsNow;
              ObsChange Automerge.init (js "Initialize") fresh_doc] []).
    reflexivity. }
  assert (Hadd :
            run (@DogTag.add exact_matcher (Some (js "secrets.gpg")) (Some (js "key")))
              [AStr (js "saved"); AStr (js "saved"); ADoc fresh_doc;
               AStr (js "email work"); AStr (js "p@ss"); AStr (js "id-1")] =
            Some (Returned (Output first_doc),
                  [ObsGetDecrypted (Some (js "secrets.gpg"));
                   ObsGetDecrypted (Some (js "saved"));
                   ObsLoad (js "saved") (inr fresh_doc);
                   ObsPrompt (js "Enter tags to find this secret later");
                   ObsPrompt (js "Enter secret"); ObsUuid;
                   ObsChange fresh_doc (js "Add 'email, work'") first_doc],
                  [])) by reflexivity.
  assert (Hcommit : @commits exact_matcher fresh_doc first_doc).
  { exists (Some (js "secrets.gpg")), (Some (js "key")), None.
    do 3 eexists. exists (js "Add 'email, work'").
    split; [|left; eexists; exact Hadd].
    do 6 right. left. reflexivity. }
  destruct (@version_follows_history exact_matcher) as [Hrun Hstep].
  destruct (Hstep fresh_doc first_doc Hlineage Hcommit) as [Hlt Hv].
  destruct (Hrun (Some (js "secrets.gpg")) (Some (js "key")) None _ _ _ _
              (or_introl Hadd)) as (plain & d & m & Hload & Hchange & Hversion).
  split; [exact Hlt|]. split; [exact Hv|].
  exists plain, d, m. split; [exact Hchange|]. split; [exact Hload | exact Hversion].
Defined.

(** Supporting C5: in every run of [add] and of [delete], each change leaves
    [updatedAt] as it was. *)
Lemma add_and_delete_keep_updatedAt {ext : Externals}
    a b c script o trace rest d m d' :
  run (DogTag.add a b) script = Some (o, trace, rest) \/
  run (DogTag.delete a b c) script = Some (o, trace, rest) ->
  In (ObsChange d m d') trace ->
  Doc.updatedAt (Automerge.state d') = Doc.updatedAt (Automerge.state d).
Proof.
  intros Hrun Hin.
  assert (Hall : Forall (change_rule true) trace).
  { destruct Hrun as [H|H].
    - exact (proj1 (post_run _ _ _ _ _ _ (add_rule a b) H)).
    - exact (proj1 (post_run _ _ _ _ _ _ (delete_rule a b c) H)). }
  rewrite Forall_forall in Hall.
  exact (proj2 (proj2 (Hall _ Hin)) eq_refl).
Qed.

(** Supporting C5: [list] performs no change, whatever it is answered. *)
Lemma list_performs_no_change {ext : Externals} a b q script o trace rest :
  run (DogTag.list a b q) script = Some (o, trace, rest) -> changes trace = 0.
Proof. intros H. exact (post_run _ _ _ _ _ _ (list_reads a b q) H). Qed.

(** C5.  The code against the claim: a document is initialized at time 1000;
    [add] then stores a new entry in it, so its content changes, and gives a
    document whose [updatedAt] is still 1000.  The run of [add] does not
    read the clock at all.  The same holds of [delete], which on the document
    so obtained removes the entry and leaves [updatedAt] at 1000. *)
Theorem add_and_delete_leave_updatedAt :
  run (@DogTag.init exact_matcher) [AStr (js "doc"); ANum 1000] =
    Some (Returned fresh_doc,
          [ObsUuid; ObsNow; ObsChange Automerge.init (js "Initialize") fresh_doc],
          []) /\
  Doc.updatedAt (Automerge.state fresh_doc) = 1000%Z /\
  (exists trace,
     run (@DogTag.add exact_matcher (Some (js "secrets.gpg")) (Some (js "key")))
       [AStr (js "saved"); AStr (js "saved"); ADoc fresh_doc;
        AStr (js "email work"); AStr (js "p@ss"); AStr (js "id-1")] =
     Some (Returned (Output first_doc), trace, []) /\
     ~ In ObsNow trace) /\
  Doc.secrets (Automerge.state first_doc) <> Doc.secrets (Automerge.state fresh_doc) /\
  Doc.updatedAt (Automerge.state first_doc) = 1000%Z /\
  (exists emptied trace,
     run (@DogTag.delete exact_matcher
            (Some (js "secrets.gpg")) (Some (js "key")) (Some (js "work")))
       [AStr (js "saved"); ADoc first_doc; ABool true; ABool true] =
     Some (Returned (Output emptied), trace, []) /\
     ~ In ObsNow trace /\
     Doc.secrets (Automerge.state emptied) = [] /\
     Doc.updatedAt (Automerge.state emptied) = 1000%Z).
Proof.
  refine (conj eq_refl (conj eq_refl (conj _ (conj _ (conj eq_refl _))))).
  - eexists. split; [reflexivity|]. simpl. intuition discriminate.
  - discriminate.
  - do 2 eexists. split; [reflexivity|]. split; [|split; reflexivity].
    simpl. intuition discriminate.
Qed.

(** * Further properties *)

(** ** More on the tags *)

Section MoreTags.

Lemma concat_split b s :
  concat (split_separators b s) = filter (fun c => negb (is_separator c)) s.
Proof.
  revert b; induction s as [|c s IH]; intros b; simpl; [reflexivity|].
  destruct (is_separator c) eqn:Hc; simpl.
  - destruct b; [apply IH | simpl; apply IH].
  - specialize (IH false). pose proof (split_nonempty false s) as Hne.
    destruct (split_separators false s) as [|p ps]; [congruence|].
    simpl in *. now rewrite IH.
Qed.

Lemma separator_free_Forall (T : list jsstring) :
  Forall (fun t => separator_free t = true) T -> forallb separator_free T = true.
Proof. intros H. apply forallb_forall. now apply Forall_forall. Qed.

(** What [add] stores is given back by splitting its rendering. *)
Lemma stored_round_trip (s : jsstring) :
  getTagsFromString (join (js ", ") (getTagsFromString s)) = getTagsFromString s.
Proof.
  apply split_join.
  - apply split_nonempty.
  - apply separator_free_Forall, split_separator_free.
  - apply split_interior.
Qed.

(** A code unit that is not in the separator of [join] is in the joined
    form exactly when it is in one of the pieces. *)
Lemma in_join c sep (T : list jsstring) :
  ~ In c sep -> (In c (join sep T) <-> In c (concat T)).
Proof.
  intros Hsep. induction T as [|t T IH]; [reflexivity|].
  destruct T as [|t2 T].
  - simpl. now rewrite app_nil_r.
  - change (join sep (t :: t2 :: T)) with (t ++ sep ++ join sep (t2 :: T)).
    change (concat (t :: t2 :: T)) with (t ++ concat (t2 :: T)).
    rewrite !in_app_iff, IH. tauto.
Qed.

Lemma filter_separator_free t :
  separator_free t = true -> filter (fun c => negb (is_separator c)) t = t.
Proof.
  induction t as [|c t IH]; simpl; [reflexivity|]. intros H.
  apply andb_true_iff in H as [Hc Ht]. rewrite Hc, IH by assumption. reflexivity.
Qed.

Lemma filter_join (T : list jsstring) :
  forallb separator_free T = true ->
  filter (fun c => negb (is_separator c)) (join (js ", ") T) = concat T.
Proof.
  induction T as [|t T IH]; [reflexivity|]. intros H.
  simpl in H. apply andb_true_iff in H as [Ht HT].
  destruct T as [|t2 T].
  - simpl. rewrite app_nil_r. now apply filter_separator_free.
  - change (join (js ", ") (t :: t2 :: T))
      with (t ++ js ", " ++ join (js ", ") (t2 :: T)).
    rewrite !filter_app, IH by assumption.
    rewrite (filter_separator_free t Ht). reflexivity.
Qed.

End MoreTags.

(** X1.  The tags that [add] stores round-trip: whatever was entered,
    joining the stored tags and splitting the result gives the stored tags
    back; hence two inputs whose stored tags render alike have the same stored
    tags. *)
Theorem stored_tags_round_trip (s1 s2 : jsstring) :
  (exists rendering,
     slugifyTags (VArr (getTagsFromString s1)) = inr rendering /\
     getTagsFromString rendering = getTagsFromString s1) /\
  (slugifyTags (VArr (getTagsFromString s1)) =
   slugifyTags (VArr (getTagsFromString s2)) ->
   getTagsFromString s1 = getTagsFromString s2).
Proof.
  split.
  - eexists. split; [reflexivity | apply stored_round_trip].
  - intros H. injection H as H.
    rewrite <- (stored_round_trip s1), <- (stored_round_trip s2).
    now rewrite H.
Qed.

Lemma stored_tags_round_trip_witness :
  getTagsFromString (js " email,work ") = getTagsFromString (js " email work,") /\
  getTagsFromString (js " email,work ") = [[]; js "email"; js "work"; []].
Proof.
  split; [|reflexivity].
  apply (proj2 (stored_tags_round_trip (js " email,work ") (js " email work,"))).
  reflexivity.
Defined.

(** X2.  Splitting loses the separators and nothing else: the tags of an
    input, put end to end, are the input with its whitespace and commas
    removed, in order; and so is their rendering, once the separators that
    the joining added are removed again. *)
Theorem tags_keep_all_but_separators (str : jsstring) :
  concat (getTagsFromString str) =
    filter (fun c => negb (is_separator c)) str /\
  filter (fun c => negb (is_separator c))
    (join (js ", ") (getTagsFromString str)) =
    filter (fun c => negb (is_separator c)) str.
Proof.
  split.
  - apply concat_split.
  - rewrite filter_join by (apply separator_free_Forall, split_separator_free).
    apply concat_split.
Qed.

(** X3.  The message of the change that [add] records is written around the
    rendering of the tags as they were entered: it holds a double quote
    exactly when the input for the tags holds one.  (The module's comments
    require messages free of double quotes; nothing removes one from the
    input.) *)
Theorem add_message_double_quote {ext : Externals}
    a b localTag plain instance tagsInput secret id rest :
  forallb truthy [Some localTag; b] = true ->
  exists message added trace,
    run (DogTag.add a b)
      (AStr localTag :: AStr plain :: ADoc instance :: AStr tagsInput ::
       AStr secret :: AStr id :: rest) =
      Some (Returned (Output added), trace, rest) /\
    In (ObsChange instance message added) trace /\
    Automerge.history added = Automerge.history instance ++ [message] /\
    (In 34%N message <-> In 34%N tagsInput).
Proof.
  intros Hargs. do 3 eexists.
  split; [exact (add_run a b localTag plain instance tagsInput secret id rest Hargs)|].
  split; [do 6 right; left; reflexivity|].
  split; [reflexivity|].
  unfold DogTag.add_message. rewrite !in_app_iff.
  assert (Hadd : ~ In 34%N (js "Add '")) by (simpl; intuition discriminate).
  assert (Hend : ~ In 34%N (js "'")) by (simpl; intuition discriminate).
  assert (Hsep : ~ In 34%N (js ", ")) by (simpl; intuition discriminate).
  rewrite (in_join _ _ _ Hsep). unfold getTagsFromString.
  rewrite concat_split, filter_In. intuition.
Qed.

Lemma add_message_double_quote_witness :
  exists message added trace,
    run (@DogTag.add exact_matcher (Some (js "secrets.gpg")) (Some (js "key")))
      [AStr (js "saved"); AStr (js "saved"); ADoc sample_doc;
       AStr (34%N :: js "bank"); AStr (js "1234"); AStr (js "id-2")] =
      Some (Returned (Output added), trace, []) /\
    In 34%N message /\
    Automerge.history added = Automerge.history sample_doc ++ [message].
Proof.
  destruct (@add_message_double_quote exact_matcher
              (Some (js "secrets.gpg")) (Some (js "key")) (js "saved") (js "saved")
              sample_doc (34%N :: js "bank") (js "1234") (js "id-2") [] eq_refl)
    as (message & added & trace & Hrun & _ & Hhistory & Hquote).
  exists message, added, trace. split; [exact Hrun|].
  split; [apply Hquote; left; reflexivity | exact Hhistory].
Defined.

(** ** Persisting *)

Section Newlines.

Lemma list_pair_ind {A} (P : list A -> Prop) :
  P [] -> (forall x, P [x]) ->
  (forall x y l, P l -> P (y :: l) -> P (x :: y :: l)) ->
  forall l, P l.
Proof.
  intros Hnil Hone Hstep l.
  assert (H : P l /\ forall x, P (x :: l)).
  { induction l as [|y l [IH1 IH2]]; split; auto. }
  exact (proj1 H).
Qed.

Lemma normalize_cons2 x y l :
  normalize_newlines (x :: y :: l) =
  if N.eqb x 13 then
    if N.eqb y 10 then 32%N :: normalize_newlines l
    else 32%N :: normalize_newlines (y :: l)
  else if N.eqb x 10 then 32%N :: normalize_newlines (y :: l)
  else x :: normalize_newlines (y :: l).
Proof. reflexivity. Qed.

Lemma normalize_no_line_break s :
  forallb (fun c => negb (is_line_break c)) (normalize_newlines s) = true.
Proof.
  induction s as [|x|x y l IH1 IH2] using list_pair_ind.
  - reflexivity.
  - simpl. unfold is_line_break.
    destruct (N.eqb x 13) eqn:E13; [reflexivity|].
    destruct (N.eqb x 10) eqn:E10; [reflexivity|].
    simpl. unfold is_line_break. now rewrite E13, E10.
  - rewrite normalize_cons2.
    destruct (N.eqb x 13) eqn:E13.
    + destruct (N.eqb y 10); cbn [forallb]; [exact IH1 | exact IH2].
    + destruct (N.eqb x 10) eqn:E10; cbn [forallb]; [exact IH2|].
      unfold is_line_break at 1. rewrite E13, E10. exact IH2.
Qed.

Lemma normalize_fixed s :
  forallb (fun c => negb (is_line_break c)) s = true -> normalize_newlines s = s.
Proof.
  induction s as [|c s IH]; [reflexivity|]. cbn [forallb normalize_newlines].
  unfold is_line_break at 1. intros H. apply andb_true_iff in H as [Hc Hs].
  apply negb_true_iff, orb_false_iff in Hc as [E13 E10].
  rewrite E13, E10, IH by assumption. reflexivity.
Qed.

Lemma normalize_length s :
  List.length (normalize_newlines s) <= List.length s.
Proof.
  induction s as [|x|x y l IH1 IH2] using list_pair_ind.
  - auto.
  - simpl. destruct (N.eqb x 13); [auto|]. destruct (N.eqb x 10); auto.
  - rewrite normalize_cons2.
    destruct (N.eqb x 13).
    + destruct (N.eqb y 10); cbn [List.length] in *; lia.
    + destruct (N.eqb x 10); cbn [List.length] in *; lia.
Qed.

End Newlines.

(** X4.  What [getAutomergeSave] gives out holds no carriage return and no
    line feed, is no longer than what the engine saved, and is what the
    engine saved exactly when that held no line break; a failure of the
    engine's [save] is returned as [{ error }], or thrown again when it is a
    system error. *)
Theorem getAutomergeSave_one_line {cap : Persistence} (instance : Automerge.doc) :
  (forall text,
     Persist.getAutomergeSave instance = Returned (Output text) ->
     exists saved,
       Automerge_save instance = inr saved /\
       text = normalize_newlines saved /\
       forallb (fun c => negb (is_line_break c)) text = true /\
       List.length text <= List.length saved /\
       (text = saved <->
        forallb (fun c => negb (is_line_break c)) saved = true)) /\
  (forall saved,
     Automerge_save instance = inr saved ->
     Persist.getAutomergeSave instance = Returned (Output (normalize_newlines saved))) /\
  (forall e,
     Automerge_save instance = inl e ->
     Persist.getAutomergeSave instance =
     if Bounce_isSystem e then Thrown e else Returned (Error e)).
Proof.
  unfold Persist.getAutomergeSave, caught.
  refine (conj _ (conj _ _)).
  - intros text H. destruct (Automerge_save instance) as [e|saved].
    + destruct (Bounce_isSystem e); discriminate.
    + inversion H; subst. exists saved.
      refine (conj eq_refl (conj eq_refl (conj _ (conj _ _)))).
      * apply normalize_no_line_break.
      * apply normalize_length.
      * split; [|apply normalize_fixed].
        intros E. rewrite <- E. apply normalize_no_line_break.
  - intros saved ->. reflexivity.
  - intros e ->. reflexivity.
Qed.

Lemma getAutomergeSave_one_line_witness :
  @Persist.getAutomergeSave plain_persistence
    {| Automerge.state := Doc.blank;
       Automerge.history := [10%N :: js "two" ++ [13%N; 10%N] ++ js "lines" ++ [13%N]] |} =
  Returned (Output (js " two lines ")).
Proof.
  destruct (@getAutomergeSave_one_line plain_persistence
              {| Automerge.state := Doc.blank;
                 Automerge.history :=
                   [10%N :: js "two" ++ [13%N; 10%N] ++ js "lines" ++ [13%N]] |})
    as (_ & Hsaved & _).
  exact (Hsaved _ eq_refl).
Defined.

(** X6.  [encryptAndSave] writes last and at most once: a write is made
    only when the key identifier and the instance are given, the engine has
    saved the instance and the encryption has answered an output, and what is
    written, to the given path, is that output, the ciphertext of the saved
    text with its line breaks made spaces.  The operation returns
    [undefined] exactly when that write was made and succeeded. *)
Theorem encryptAndSave_writes_last {cap : Persistence}
    (savePath keyIdentifier : option jsstring) (instance : option Automerge.doc)
    outcome writes :
  Persist.encryptAndSave savePath keyIdentifier instance = (outcome, writes) ->
  (writes = [] \/
   exists key inst saved encrypted,
     keyIdentifier = Some key /\ truthy keyIdentifier = true /\
     instance = Some inst /\
     Automerge_save inst = inr saved /\
     Doggo_encrypt key (normalize_newlines saved) = inr (Output encrypted) /\
     writes = [(savePath, encrypted)]) /\
  (outcome = Returned None <->
   exists encrypted,
     writes = [(savePath, encrypted)] /\ Fs_writeFile savePath encrypted = None).
Proof.
  unfold Persist.encryptAndSave, Persist.encryptAndSave_body,
    Persist.getAutomergeSave, caught.
  destruct keyIdentifier as [[|c key]|], instance as [inst|];
    try (intros H; inversion H; subst; split;
         [now left | split; [discriminate | intros (? & ? & _); discriminate]]).
  destruct (Automerge_save inst) as [e|saved] eqn:Hsave.
  - destruct (Bounce_isSystem e) eqn:He; simpl; rewrite ?He;
      intros H; inversion H; subst; (split; [now left|]);
      (split; [discriminate | intros (? & ? & _); discriminate]).
  - simpl.
    destruct (Doggo_encrypt (c :: key) (normalize_newlines saved))
      as [e|[encrypted|e]] eqn:Henc; simpl.
    + destruct (Bounce_isSystem e); intros H; inversion H; subst;
        (split; [now left|]);
        (split; [discriminate | intros (? & ? & _); discriminate]).
    + destruct (Fs_writeFile savePath encrypted) as [e|] eqn:Hwrite.
      * intros H. assert (Hw : writes = [(savePath, encrypted)])
          by (destruct (Bounce_isSystem e); inversion H; reflexivity).
        assert (Ho : outcome <> Returned None)
          by (destruct (Bounce_isSystem e); inversion H; discriminate).
        split.
        -- right. exists (c :: key), inst, saved, encrypted. auto 10.
        -- split; [intros E; now elim Ho|].
           intros (enc & E & Hnone). rewrite Hw in E. inversion E; subst.
           congruence.
      * intros H; inversion H; subst. split.
        -- right. exists (c :: key), inst, saved, encrypted. auto 10.
        -- split; [eauto | reflexivity].
    + destruct (Bounce_isSystem e); intros H; inversion H; subst;
        (split; [now left|]);
        (split; [discriminate | intros (? & ? & _); discriminate]).
Qed.

Lemma encryptAndSave_writes_last_witness :
  @Persist.encryptAndSave plain_persistence (Some (js "secrets.gpg"))
    (Some (js "key")) (Some sample_doc) =
    (Returned None,
     [(Some (js "secrets.gpg"), js "key:Add 'email, work'")]) /\
  exists encrypted,
    [(Some (js "secrets.gpg"), js "key:Add 'email, work'")] =
      [(Some (js "secrets.gpg"), encrypted)] /\
    @Fs_writeFile plain_persistence (Some (js "secrets.gpg")) encrypted = None.
Proof.
  split; [reflexivity|].
  apply (proj2 (@encryptAndSave_writes_last plain_persistence
                  (Some (js "secrets.gpg")) (Some (js "key")) (Some sample_doc)
                  _ _ eq_refl)).
  reflexivity.
Defined.

(** ** Every run of the mutating operations *)

Lemma changes_cons o trace :
  changes (o :: trace) = (if is_change o then 1 else 0) + changes trace.
Proof. unfold changes. simpl. now destruct (is_change o). Qed.

Lemma quiet_each step trace :
  forallb quiet trace = true -> each_change step trace.
Proof.
  unfold each_change. induction trace as [|o trace IH]; simpl; [constructor|].
  intros H. apply andb_true_iff in H as [Ho Ht].
  constructor; [|auto]. destruct o; try exact I. discriminate.
Qed.

Ltac count_changes :=
  repeat (rewrite changes_cons || rewrite changes_app);
  try match goal with
      | H : forallb quiet ?t = true |- _ => rewrite (quiet_changes t H)
      end;
  cbn; reflexivity.

Ltac step_solver :=
  cbn beta iota; try exact I;
  unfold add_step, delete_step, update_step, keeps_identity; cbn;
  repeat split; try reflexivity; repeat eexists; try reflexivity;
  try match goal with
      | H : DogTag.accepts_copy ?t ?e = inr _ |- _ =>
          unfold DogTag.accepts_copy in H;
          destruct (DogTag.keeps_document_array t e);
          [discriminate H | reflexivity]
      end.

Ltac step_leaf :=
  unfold op_rule; split;
  [ count_changes
  | unfold each_change;
    repeat first
      [ apply Forall_nil
      | apply Forall_cons; [step_solver|]
      | apply quiet_each; assumption
      | apply Forall_app; split ] ].

Section StepRules.

Context {ext : Externals}.

Lemma add_steps a b : post (DogTag.add a b) (op_rule add_step Some).
Proof.
  unfold DogTag.add, DogTag.getInstance, catch_expected, Helpers.assert,
    Helpers.getDecrypted, Helpers.withErrHandling, Helpers.prompt.
  post_steps; step_leaf.
Qed.

#[local] Arguments DogTag.getSingleFromList : simpl never.

Lemma delete_steps a b q : post (DogTag.delete a b q) (op_rule delete_step Some).
Proof.
  unfold DogTag.delete, DogTag.delete_located, DogTag.getInstance,
    catch_expected, Helpers.assert, Helpers.getDecrypted,
    Helpers.withErrHandling.
  post_steps; try (step_leaf; fail).
  apply post_try_catch, post_bind, post_bind.
  eapply post_mono; [|apply getSingleFromList_quiet].
  intros o trace Hquiet. simpl in Hquiet.
  post_steps; step_leaf.
Qed.

Lemma update_steps a b q :
  post (DogTag.update a b q) (op_rule update_step updated_doc).
Proof.
  unfold DogTag.update, DogTag.update_located, DogTag.getInstance,
    catch_expected, Helpers.assert, Helpers.getDecrypted,
    Helpers.withErrHandling.
  post_steps; try (step_leaf; fail).
  apply post_try_catch, post_bind, post_bind.
  eapply post_mono; [|apply getSingleFromList_quiet].
  intros o trace Hquiet. simpl in Hquiet.
  post_steps; step_leaf.
Qed.

End StepRules.

Section SpliceFacts.

(** An index that [findIndex] has found is that of the first element that
    satisfies the predicate. *)
Lemma findIndex_from_found {A} (p : A -> bool) l i :
  (0 <= i)%Z -> (0 <= findIndex_from p l i)%Z ->
  exists before x behind,
    l = before ++ x :: behind /\ p x = true /\
    forallb (fun y => negb (p y)) before = true.
Proof.
  revert i; induction l as [|y l IH]; intros i Hi; simpl; [lia|].
  destruct (p y) eqn:Hy.
  - intros _. exists [], y, l. auto.
  - intros H. destruct (IH (i + 1)%Z) as (before & x & behind & -> & Hx & Hb);
      [lia | exact H |].
    exists (y :: before), x, behind. simpl. rewrite Hy. auto.
Qed.

Lemma splice_found {A} (p : A -> bool) l items :
  (0 <= findIndex p l)%Z ->
  exists before x behind,
    l = before ++ x :: behind /\ p x = true /\
    forallb (fun y => negb (p y)) before = true /\
    splice l (findIndex p l) 1 items = before ++ items ++ behind.
Proof.
  intros H.
  destruct (findIndex_from_found p l 0%Z (Z.le_refl 0) H)
    as (before & x & behind & -> & Hx & Hb).
  exists before, x, behind. refine (conj eq_refl (conj Hx (conj Hb _))).
  rewrite (findIndex_first p before x behind Hb Hx). apply splice_at.
Qed.

End SpliceFacts.

Section EveryRun.

Context {ext : Externals}.

Lemma each_change_in step trace d m d' :
  each_change step trace -> In (ObsChange d m d') trace -> step d d'.
Proof.
  unfold each_change. rewrite Forall_forall. intros H Hin. exact (H _ Hin).
Qed.

Lemma count_spec {B} (out : B -> option Automerge.doc) o n :
  n = (if returned_doc out o then 1 else 0) ->
  n <= 1 /\ (n = 1 <-> exists x d, o = Returned (Output x) /\ out x = Some d).
Proof.
  intros ->. unfold returned_doc.
  destruct o as [[x|e]|e]; try (split; [lia|]; split;
    [discriminate | intros (? & ? & ? & _); discriminate]).
  destruct (out x) as [d|] eqn:E; split; try lia; split; try discriminate; eauto.
  intros (x' & d & H & Hout). inversion H; subst. congruence.
Qed.

End EveryRun.

(** X7.  In every finished run of [add], [delete] and [update], whatever
    the replies, at most one change is made, and one is made exactly when the
    operation returns a document: a cancelled, failed or fruitless operation
    changes nothing, and a returned document is never the result of two
    changes. *)
Theorem one_change_per_document {ext : Externals} a b q script trace rest :
  (forall o, run (DogTag.add a b) script = Some (o, trace, rest) ->
     changes trace <= 1 /\
     (changes trace = 1 <-> exists d, o = Returned (Output d))) /\
  (forall o, run (DogTag.delete a b q) script = Some (o, trace, rest) ->
     changes trace <= 1 /\
     (changes trace = 1 <-> exists d, o = Returned (Output d))) /\
  (forall o, run (DogTag.update a b q) script = Some (o, trace, rest) ->
     changes trace <= 1 /\
     (changes trace = 1 <-> exists d, o = Returned (Output (inr d)))).
Proof.
  refine (conj _ (conj _ _)); intros o H.
  - destruct (count_spec Some o _
                (proj1 (post_run _ _ _ _ _ _ (add_steps a b) H))) as [Hle Hiff].
    split; [exact Hle|]. rewrite Hiff. split.
    + intros (x & d & -> & _). eauto.
    + intros (d & ->). eauto.
  - destruct (count_spec Some o _
                (proj1 (post_run _ _ _ _ _ _ (delete_steps a b q) H))) as [Hle Hiff].
    split; [exact Hle|]. rewrite Hiff. split.
    + intros (x & d & -> & _). eauto.
    + intros (d & ->). eauto.
  - destruct (count_spec updated_doc o _
                (proj1 (post_run _ _ _ _ _ _ (update_steps a b q) H))) as [Hle Hiff].
    split; [exact Hle|]. rewrite Hiff. split.
    + intros (x & d & -> & Hx). destruct x; inversion Hx; subst. eauto.
    + intros (d & ->). exists (inr d), d. auto.
Qed.

Lemma one_change_per_document_witness :
  changes
    [ObsGetDecrypted (Some (js "secrets.gpg"));
     ObsGetDecrypted (Some (js "saved"));
     ObsLoad (js "saved") (inr fresh_doc);
     ObsPrompt (js "Enter tags to find this secret later");
     ObsPrompt (js "Enter secret"); ObsUuid;
     ObsChange fresh_doc (js "Add 'email, work'") first_doc] = 1.
Proof.
  destruct (@one_change_per_document exact_matcher
              (Some (js "secrets.gpg")) (Some (js "key")) None
              [AStr (js "saved"); AStr (js "saved"); ADoc fresh_doc;
               AStr (js "email work"); AStr (js "p@ss"); AStr (js "id-1")]
              [ObsGetDecrypted (Some (js "secrets.gpg"));
               ObsGetDecrypted (Some (js "saved"));
               ObsLoad (js "saved") (inr fresh_doc);
               ObsPrompt (js "Enter tags to find this secret later");
               ObsPrompt (js "Enter secret"); ObsUuid;
               ObsChange fresh_doc (js "Add 'email, work'") first_doc]
              []) as (Hadd & _).
  destruct (Hadd (Returned (Output first_doc)) eq_refl) as [_ Hiff].
  apply Hiff. exists first_doc. reflexivity.
Defined.

(** X8.  Every change that [add], [delete] or [update] makes, in any run,
    leaves the identifier of the document and its [isDoggo] mark as they
    were and writes the version of the doggo package into [doggoVersion]. *)
Theorem changes_keep_identity {ext : Externals}
    a b q script trace rest d m d' :
  (exists o, run (DogTag.add a b) script = Some (o, trace, rest)) \/
  (exists o, run (DogTag.delete a b q) script = Some (o, trace, rest)) \/
  (exists o, run (DogTag.update a b q) script = Some (o, trace, rest)) ->
  In (ObsChange d m d') trace ->
  Doc.id (Automerge.state d') = Doc.id (Automerge.state d) /\
  Doc.isDoggo (Automerge.state d') = Doc.isDoggo (Automerge.state d) /\
  Doc.doggoVersion (Automerge.state d') = DoggoPackage_version.
Proof.
  intros [[o H]|[[o H]|[o H]]] Hin.
  - exact (proj1 (each_change_in _ _ _ _ _
             (proj2 (post_run _ _ _ _ _ _ (add_steps a b) H)) Hin)).
  - exact (proj1 (each_change_in _ _ _ _ _
             (proj2 (post_run _ _ _ _ _ _ (delete_steps a b q) H)) Hin)).
  - exact (proj1 (each_change_in _ _ _ _ _
             (proj2 (post_run _ _ _ _ _ _ (update_steps a b q) H)) Hin)).
Qed.

Lemma changes_keep_identity_witness :
  Doc.id (Automerge.state first_doc) = js "doc" /\
  Doc.isDoggo (Automerge.state first_doc) = true /\
  Doc.doggoVersion (Automerge.state first_doc) = js "2.0.0".
Proof.
  eapply (@changes_keep_identity exact_matcher
            (Some (js "secrets.gpg")) (Some (js "key")) None
            [AStr (js "saved"); AStr (js "saved"); ADoc fresh_doc;
             AStr (js "email work"); AStr (js "p@ss"); AStr (js "id-1")]
            _ [] fresh_doc (js "Add 'email, work'") first_doc).
  - left. eexists. reflexivity.
  - do 6 right. left. reflexivity.
Defined.

(** X9.  Every change that [add] makes appends exactly one entry and leaves
    the entries that were there as they were, in their places; the tags of
    the new entry are a non-empty sequence of pieces without separators. *)
Theorem add_appends_one {ext : Externals} a b script o trace rest d m d' :
  run (DogTag.add a b) script = Some (o, trace, rest) ->
  In (ObsChange d m d') trace ->
  exists tags secret id,
    Doc.secrets (Automerge.state d') =
      Doc.secrets (Automerge.state d) ++ [DogTag.new_entry tags secret id] /\
    tags <> [] /\
    Forall (fun t => separator_free t = true) tags.
Proof.
  intros H Hin.
  destruct (each_change_in _ _ _ _ _
              (proj2 (post_run _ _ _ _ _ _ (add_steps a b) H)) Hin)
    as (_ & tagsInput & secret & id & Hsecrets).
  exists (getTagsFromString tagsInput), secret, id.
  refine (conj Hsecrets (conj _ _)).
  - apply split_nonempty.
  - apply split_separator_free.
Qed.

Lemma add_appends_one_witness :
  exists tags secret id,
    Doc.secrets (Automerge.state first_doc) =
      Doc.secrets (Automerge.state fresh_doc) ++ [DogTag.new_entry tags secret id] /\
    tags <> [] /\
    Forall (fun t => separator_free t = true) tags.
Proof.
  eapply (@add_appends_one exact_matcher
            (Some (js "secrets.gpg")) (Some (js "key"))
            [AStr (js "saved"); AStr (js "saved"); ADoc fresh_doc;
             AStr (js "email work"); AStr (js "p@ss"); AStr (js "id-1")]
            _ _ [] fresh_doc (js "Add 'email, work'") first_doc).
  - reflexivity.
  - do 6 right. left. reflexivity.
Defined.

(** X10.  Every change that [delete] makes, in any run, is the deletion of
    some target from [secrets]; and such a change, when an entry carries the
    [id] of the target, takes out the first entry that does and leaves all
    the others as they were, in their order. *)
Theorem delete_removes_one {ext : Externals} a b q script o trace rest d m d' :
  run (DogTag.delete a b q) script = Some (o, trace, rest) ->
  In (ObsChange d m d') trace ->
  (exists target,
     Doc.secrets (Automerge.state d') =
     Doc.secrets (DogTag.delete_mutator d target (Automerge.state d))) /\
  (forall target,
     Doc.secrets (Automerge.state d') =
     Doc.secrets (DogTag.delete_mutator d target (Automerge.state d)) ->
     (0 <= findIndex (DogTag.same_id target)
             (Doc.secrets (Automerge.state d)))%Z ->
     exists before x behind,
       Doc.secrets (Automerge.state d) = before ++ x :: behind /\
       DogTag.same_id target x = true /\
       forallb (fun item => negb (DogTag.same_id target item)) before = true /\
       Doc.secrets (Automerge.state d') = before ++ behind).
Proof.
  intros H Hin.
  destruct (each_change_in _ _ _ _ _
              (proj2 (post_run _ _ _ _ _ _ (delete_steps a b q) H)) Hin)
    as (_ & target & Hsecrets).
  split; [exists target; exact Hsecrets|].
  clear target Hsecrets. intros target Hsecrets Hfound.
  destruct (splice_found (DogTag.same_id target)
              (Doc.secrets (Automerge.state d)) [] Hfound)
    as (before & x & behind & Hsplit & Hx & Hb & Hsplice).
  exists before, x, behind. refine (conj Hsplit (conj Hx (conj Hb _))).
  rewrite Hsecrets. exact Hsplice.
Qed.

Lemma delete_removes_one_witness :
  exists before x behind,
    Doc.secrets (Automerge.state bank_doc) = before ++ x :: behind /\
    DogTag.same_id bank_entry x = true /\
    forallb (fun item => negb (DogTag.same_id bank_entry item)) before = true /\
    Doc.secrets
      (Automerge.state
         (Automerge.change bank_doc (js "Delete 'bank'")
            (@DogTag.delete_mutator exact_matcher bank_doc bank_entry))) =
    before ++ behind.
Proof.
  destruct (@delete_removes_one exact_matcher
              (Some (js "secrets.gpg")) (Some (js "key")) (Some (js "bank"))
              [AStr (js "saved"); ADoc bank_doc; ABool true; ABool true]
              (Returned (Output
                 (Automerge.change bank_doc (js "Delete 'bank'")
                    (@DogTag.delete_mutator exact_matcher bank_doc bank_entry))))
              _ [] bank_doc (js "Delete 'bank'")
              (Automerge.change bank_doc (js "Delete 'bank'")
                 (@DogTag.delete_mutator exact_matcher bank_doc bank_entry))
              eq_refl
              (or_intror (or_intror (or_intror (or_intror (or_introl eq_refl))))))
    as (_ & Hremoved).
  assert (Hfound : (0 <= findIndex (DogTag.same_id bank_entry)
                          (Doc.secrets (Automerge.state bank_doc)))%Z)
    by (vm_compute; discriminate).
  exact (Hremoved bank_entry eq_refl Hfound).
Defined.

(** X11.  Every change that [update] makes, in any run, puts into [secrets]
    the merged copy for some target and edited fields, a copy that holds no
    array of the document; and such a change, when an entry carries the [id] of
    the target, puts the copy in the place of the first entry that does and
    leaves all the others as they were, in their places: the number of
    entries stays the same. *)
Theorem update_replaces_one {ext : Externals} a b q script o trace rest d m d' :
  run (DogTag.update a b q) script = Some (o, trace, rest) ->
  In (ObsChange d m d') trace ->
  (exists target edited,
     DogTag.keeps_document_array target edited = false /\
     forall now,
       Doc.secrets (Automerge.state d') =
       Doc.secrets (DogTag.update_mutator d target edited now (Automerge.state d))) /\
  (forall target edited now,
     Doc.secrets (Automerge.state d') =
     Doc.secrets (DogTag.update_mutator d target edited now (Automerge.state d)) ->
     (0 <= findIndex (DogTag.same_id target)
             (Doc.secrets (Automerge.state d)))%Z ->
     exists before x behind,
       Doc.secrets (Automerge.state d) = before ++ x :: behind /\
       DogTag.same_id target x = true /\
       forallb (fun item => negb (DogTag.same_id target item)) before = true /\
       Doc.secrets (Automerge.state d') =
         before ++ Object_assign [] [target; edited] :: behind /\
       List.length (Doc.secrets (Automerge.state d')) =
         List.length (Doc.secrets (Automerge.state d))).
Proof.
  intros H Hin.
  destruct (each_change_in _ _ _ _ _
              (proj2 (post_run _ _ _ _ _ _ (update_steps a b q) H)) Hin)
    as (_ & target & edited & Hsecrets & Htakes).
  split; [exists target, edited; split; [exact Htakes | intros now; exact Hsecrets]|].
  clear target edited Hsecrets Htakes. intros target edited now Hsecrets Hfound.
  destruct (splice_found (DogTag.same_id target)
              (Doc.secrets (Automerge.state d))
              [Object_assign [] [target; edited]] Hfound)
    as (before & x & behind & Hsplit & Hx & Hb & Hsplice).
  exists before, x, behind.
  assert (E : Doc.secrets (Automerge.state d') =
              before ++ Object_assign [] [target; edited] :: behind).
  { rewrite Hsecrets. exact Hsplice. }
  refine (conj Hsplit (conj Hx (conj Hb (conj E _)))).
  rewrite E, Hsplit, !length_app. reflexivity.
Qed.

Lemma update_replaces_one_witness :
  exists before x behind,
    Doc.secrets (Automerge.state bank_doc) = before ++ x :: behind /\
    DogTag.same_id bank_entry x = true /\
    forallb (fun item => negb (DogTag.same_id bank_entry item)) before = true /\
    Doc.secrets
      (Automerge.state
         (Automerge.change bank_doc (js "Update 'bank'")
            (@DogTag.update_mutator exact_matcher bank_doc bank_entry
               bank_reply 2000))) =
      before ++ Object_assign [] [bank_entry; bank_reply] :: behind /\
    List.length
      (Doc.secrets
         (Automerge.state
            (Automerge.change bank_doc (js "Update 'bank'")
               (@DogTag.update_mutator exact_matcher bank_doc bank_entry
                  bank_reply 2000)))) =
    List.length (Doc.secrets (Automerge.state bank_doc)).
Proof.
  destruct (@update_replaces_one exact_matcher
              (Some (js "secrets.gpg")) (Some (js "key")) (Some (js "bank"))
              [AStr (js "saved"); ADoc bank_doc; AObj bank_reply; ANum 2000]
              (Returned (Output (inr
                 (Automerge.change bank_doc (js "Update 'bank'")
                    (@DogTag.update_mutator exact_matcher bank_doc bank_entry
                       bank_reply 2000)))))
              _ [] bank_doc (js "Update 'bank'")
              (Automerge.change bank_doc (js "Update 'bank'")
                 (@DogTag.update_mutator exact_matcher bank_doc bank_entry
                    bank_reply 2000))
              eq_refl
              (or_intror (or_intror (or_intror (or_intror (or_introl eq_refl))))))
    as (_ & Hreplaced).
  assert (Hfound : (0 <= findIndex (DogTag.same_id bank_entry)
                          (Doc.secrets (Automerge.state bank_doc)))%Z)
    by (vm_compute; discriminate).
  exact (Hreplaced bank_entry bank_reply 2000%Z eq_refl Hfound).
Defined.

Section Counting.

Context {ext : Externals}.

Lemma length_splice_le {A} (l : list A) start n items :
  List.length (splice l start n items) <= List.length l + List.length items.
Proof.
  unfold splice. rewrite !length_app, length_firstn, length_skipn. lia.
Qed.

(** A committed change adds at most one entry. *)
Lemma commits_secrets d d' :
  commits d d' ->
  List.length (Doc.secrets (Automerge.state d')) <=
  List.length (Doc.secrets (Automerge.state d)) + 1.
Proof.
  intros (a & b & c & script & trace & rest & m & Hin & [[o H]|[[o H]|[o H]]]).
  - destruct (each_change_in _ _ _ _ _
                (proj2 (post_run _ _ _ _ _ _ (add_steps a b) H)) Hin)
      as (_ & tagsInput & secret & id & ->).
    rewrite length_app. simpl. lia.
  - destruct (each_change_in _ _ _ _ _
                (proj2 (post_run _ _ _ _ _ _ (delete_steps a b c) H)) Hin)
      as (_ & target & ->).
    pose proof (length_splice_le (Doc.secrets (Automerge.state d))
                  (findIndex (DogTag.same_id target) (Doc.secrets (Automerge.state d)))
                  1 []) as Hle.
    simpl in Hle. lia.
  - destruct (each_change_in _ _ _ _ _
                (proj2 (post_run _ _ _ _ _ _ (update_steps a b c) H)) Hin)
      as (_ & target & edited & -> & _).
    apply length_splice_le.
Qed.

End Counting.

(** X12.  Along a lineage, from the initialized document through any
    sequence of committed changes of [add], [delete] and [update], the
    version is the number of changes in the history of the document, and
    the document never holds as many entries as its version says. *)
Theorem lineage_counts {ext : Externals} (d : Automerge.doc) :
  lineage d ->
  Doc.version (Automerge.state d) =
    Z.of_nat (List.length (Automerge.getHistory d)) /\
  (Z.of_nat (List.length (Doc.secrets (Automerge.state d))) <
   Doc.version (Automerge.state d))%Z.
Proof.
  intros Hlineage. split; [exact (lineage_version d Hlineage)|].
  induction Hlineage as [script d trace rest Hrun | d d' Hlineage IH Hcommit].
  - destruct (post_run _ _ _ _ _ _ init_rule Hrun d eq_refl) as (Hv & Hs & _).
    rewrite Hv, Hs. reflexivity.
  - pose proof (commits_secrets d d' Hcommit) as Hlen.
    destruct (commits_rule d d' Hcommit) as (m & _ & Hv).
    rewrite (lineage_version d Hlineage) in IH. lia.
Qed.

Lemma lineage_counts_witness :
  Doc.version (Automerge.state first_doc) =
    Z.of_nat (List.length (Automerge.getHistory first_doc)) /\
  (Z.of_nat (List.length (Doc.secrets (Automerge.state first_doc))) <
   Doc.version (Automerge.state first_doc))%Z.
Proof.
  apply (@lineage_counts exact_matcher).
  apply (@lineage_commit exact_matcher fresh_doc first_doc).
  - apply (@lineage_init exact_matcher [AStr (js "doc"); ANum 1000] fresh_doc
             [ObsUuid; ObsNow;
              ObsChange Automerge.init (js "Initialize") fresh_doc] []).
    reflexivity.
  - exists (Some (js "secrets.gpg")), (Some (js "key")), None.
    do 3 eexists. exists (js "Add 'email, work'").
    split; [|left; eexists;
             exact (eq_refl :
               run (@DogTag.add exact_matcher (Some (js "secrets.gpg")) (Some (js "key")))
                 [AStr (js "saved"); AStr (js "saved"); ADoc fresh_doc;
                  AStr (js "email work"); AStr (js "p@ss"); AStr (js "id-1")] =
               Some (Returned (Output first_doc),
                     [ObsGetDecrypted (Some (js "secrets.gpg"));
                      ObsGetDecrypted (Some (js "saved"));
                      ObsLoad (js "saved") (inr fresh_doc);
                      ObsPrompt (js "Enter tags to find this secret later");
                      ObsPrompt (js "Enter secret"); ObsUuid;
                      ObsChange fresh_doc (js "Add 'email, work'") first_doc],
                     []))].
    do 6 right. left. reflexivity.
Defined.

(** X13.  The required arguments are checked before anything else in
    [delete] (path, key identifier and search) and in [update] (path and key
    identifier; the search may be missing): when one is absent or empty, the
    operation returns [{ error }] with the message of the check and has made
    no call at all.  [add] decrypts its path first and checks what it got,
    with the key identifier, afterwards. *)
Theorem missing_arguments {ext : Externals} (a b q : option jsstring) script :
  (forallb truthy [a; b; q] = false ->
   run (DogTag.delete a b q) script =
   Some (Returned (Error (ErrObject false
            (dquote ++ js "secretPathOrString, keyIdentifier, search" ++ dquote ++
             js " are required to delete secret"))), [], script)) /\
  (forallb truthy [a; b] = false ->
   run (DogTag.update a b q) script =
   Some (Returned (Error (ErrObject false
            (dquote ++ js "secretPathOrString, keyIdentifier" ++ dquote ++
             js " are required to update secret"))), [], script)) /\
  (forall localTag,
     forallb truthy [Some localTag; b] = false ->
     run (DogTag.add a b) (AStr localTag :: script) =
     Some (Returned (Error (ErrObject false
              (dquote ++ js "secretPathOrString, keyIdentifier" ++ dquote ++
               js " are required to add secret"))),
           [ObsGetDecrypted a], script)).
Proof.
  refine (conj _ (conj _ _)).
  - intros H. unfold DogTag.delete, Helpers.assert. rewrite H. reflexivity.
  - intros H. unfold DogTag.update, Helpers.assert. rewrite H. reflexivity.
  - intros localTag H. unfold DogTag.add, Helpers.assert, Helpers.getDecrypted.
    cbn [trigger bind run respond]. rewrite H. reflexivity.
Qed.

Lemma missing_arguments_witness :
  run (@DogTag.delete exact_matcher (Some (js "secrets.gpg")) (Some (js "key")) None)
    [AStr (js "saved")] =
  Some (Returned (Error (ErrObject false
          (dquote ++ js "secretPathOrString, keyIdentifier, search" ++ dquote ++
           js " are required to delete secret"))), [], [AStr (js "saved")]) /\
  run (@DogTag.add exact_matcher (Some (js "secrets.gpg")) None)
    [AStr (js "saved"); AStr (js "unused")] =
  Some (Returned (Error (ErrObject false
          (dquote ++ js "secretPathOrString, keyIdentifier" ++ dquote ++
           js " are required to add secret"))),
        [ObsGetDecrypted (Some (js "secrets.gpg"))], [AStr (js "unused")]).
Proof.
  destruct (@missing_arguments exact_matcher
              (Some (js "secrets.gpg")) (Some (js "key")) None [AStr (js "saved")])
    as (Hdelete & _).
  destruct (@missing_arguments exact_matcher
              (Some (js "secrets.gpg")) None None [AStr (js "unused")])
    as (_ & _ & Hadd).
  split; [exact (Hdelete eq_refl) | exact (Hadd (js "saved") eq_refl)].
Defined.

(** X14.  A failure of the decryption, or of the parsing of what was
    decrypted, ends [list], [delete] and [update] at once, with no prompt and
    no change: a system error is thrown again, any other error is returned as
    [{ error }].  In [add] the first decryption is outside the handler: its
    failure is thrown whatever its kind. *)
Theorem loading_failure {ext : Externals} (a b q : option jsstring) e rest :
  run (DogTag.list a b q) (AThrow e :: rest) =
    Some (if Bounce_isSystem e then Thrown e else Returned (Error e),
          [ObsGetDecrypted a], rest) /\
  (forall plain,
     run (DogTag.list a b q) (AStr plain :: AThrow e :: rest) =
     Some (if Bounce_isSystem e then Thrown e else Returned (Error e),
           [ObsGetDecrypted a; ObsLoad plain (inl e)], rest)) /\
  (forallb truthy [a; b; q] = true ->
   run (DogTag.delete a b q) (AThrow e :: rest) =
     Some (if Bounce_isSystem e then Thrown e else Returned (Error e),
           [ObsGetDecrypted a], rest) /\
   forall plain,
     run (DogTag.delete a b q) (AStr plain :: AThrow e :: rest) =
     Some (if Bounce_isSystem e then Thrown e else Returned (Error e),
           [ObsGetDecrypted a; ObsLoad plain (inl e)], rest)) /\
  (forallb truthy [a; b] = true ->
   run (DogTag.update a b q) (AThrow e :: rest) =
     Some (if Bounce_isSystem e then Thrown e else Returned (Error e),
           [ObsGetDecrypted a], rest) /\
   forall plain,
     run (DogTag.update a b q) (AStr plain :: AThrow e :: rest) =
     Some (if Bounce_isSystem e then Thrown e else Returned (Error e),
           [ObsGetDecrypted a; ObsLoad plain (inl e)], rest)) /\
  run (DogTag.add a b) (AThrow e :: rest) =
    Some (Thrown e, [ObsGetDecrypted a], rest).
Proof.
  refine (conj _ (conj _ (conj _ (conj _ _)))).
  - unfold DogTag.list, DogTag.getInstance, catch_expected, Helpers.getDecrypted,
      Helpers.withErrHandling. simpl.
    destruct (Bounce_isSystem e) eqn:He; simpl; rewrite ?He; reflexivity.
  - intros plain.
    unfold DogTag.list, DogTag.getInstance, catch_expected, Helpers.getDecrypted,
      Helpers.withErrHandling. simpl.
    destruct (Bounce_isSystem e) eqn:He; simpl; rewrite ?He; reflexivity.
  - intros Hargs.
    unfold DogTag.delete, DogTag.getInstance, catch_expected, Helpers.getDecrypted,
      Helpers.withErrHandling, Helpers.assert. rewrite Hargs.
    split; [|intros plain]; simpl;
      destruct (Bounce_isSystem e) eqn:He; simpl; rewrite ?He; reflexivity.
  - intros Hargs.
    unfold DogTag.update, DogTag.getInstance, catch_expected, Helpers.getDecrypted,
      Helpers.withErrHandling, Helpers.assert. rewrite Hargs.
    split; [|intros plain]; simpl;
      destruct (Bounce_isSystem e) eqn:He; simpl; rewrite ?He; reflexivity.
  - reflexivity.
Qed.

Lemma loading_failure_witness :
  run (@DogTag.delete exact_matcher
         (Some (js "secrets.gpg")) (Some (js "key")) (Some (js "work")))
    [AThrow (ErrObject false (js "no secret key")); ABool true] =
  Some (Returned (Error (ErrObject false (js "no secret key"))),
        [ObsGetDecrypted (Some (js "secrets.gpg"))], [ABool true]) /\
  run (@DogTag.add exact_matcher (Some (js "secrets.gpg")) (Some (js "key")))
    [AThrow (ErrObject false (js "no secret key")); ABool true] =
  Some (Thrown (ErrObject false (js "no secret key")),
        [ObsGetDecrypted (Some (js "secrets.gpg"))], [ABool true]).
Proof.
  destruct (@loading_failure exact_matcher
              (Some (js "secrets.gpg")) (Some (js "key")) (Some (js "work"))
              (ErrObject false (js "no secret key")) [ABool true])
    as (_ & _ & Hdelete & _ & Hadd).
  split; [exact (proj1 (Hdelete eq_refl)) | exact Hadd].
Defined.

Section Listing.

Context {ext : Externals}.

(** [list] only decrypts and parses. *)
Lemma list_silent a b q :
  post (DogTag.list a b q)
    (fun _ trace =>
       forallb (fun o => negb (asks o) && negb (is_change o)) trace = true).
Proof.
  unfold DogTag.list, DogTag.getInstance, catch_expected,
    Helpers.getDecrypted, Helpers.withErrHandling.
  post_steps; reflexivity.
Qed.

End Listing.

(** X15.  [list] gives all the entries of the document, in their order,
    when no search is given or the search is the empty string, and what
    Fuse answers for the search otherwise; it needs no key identifier, and in
    no run does it prompt or make a change. *)
Theorem list_reads_only {ext : Externals} (a b q : option jsstring) :
  (forall plain instance rest,
     run (DogTag.list a b q) (AStr plain :: ADoc instance :: rest) =
     Some (Returned (Output
             (if truthy q
              then Fuse_search (Doc.secrets (Automerge.state instance))
                     DogTag.tags_options (or_empty q)
              else Doc.secrets (Automerge.state instance))),
           loading a plain instance, rest)) /\
  (forall script o trace rest,
     run (DogTag.list a b q) script = Some (o, trace, rest) ->
     forallb (fun ob => negb (asks ob) && negb (is_change ob)) trace = true).
Proof.
  split.
  - intros plain instance rest.
    unfold DogTag.list, DogTag.getInstance, catch_expected,
      Helpers.getDecrypted, Helpers.withErrHandling.
    cbn -[DogTag.search].
    destruct (truthy q); cbn -[DogTag.search]; [rewrite search_fuse|]; reflexivity.
  - intros script o trace rest H.
    exact (post_run _ _ _ _ _ _ (list_silent a b q) H).
Qed.

Lemma list_reads_only_witness :
  run (@DogTag.list exact_matcher (Some (js "secrets.gpg")) None (Some []))
    [AStr (js "saved"); ADoc twins_list_doc] =
    Some (Returned (Output [twin_a; twin_b]),
          loading (Some (js "secrets.gpg")) (js "saved") twins_list_doc, []) /\
  forallb (fun ob => negb (asks ob) && negb (is_change ob))
    (loading (Some (js "secrets.gpg")) (js "saved") twins_list_doc) = true.
Proof.
  destruct (@list_reads_only exact_matcher (Some (js "secrets.gpg")) None (Some []))
    as (Hrun & Hsilent).
  split; [exact (Hrun (js "saved") twins_list_doc [])|].
  exact (Hsilent _ _ _ _ (Hrun (js "saved") twins_list_doc [])).
Defined.

Section Unrendered.

Context {ext : Externals}.

Lemma obj_lookup_some_in (o : object) k v :
  obj_lookup o k = Some v -> In (k, v) o.
Proof.
  induction o as [|[k0 w] o IH]; simpl; [discriminate|].
  destruct (jseqb_spec k0 k) as [->|_].
  - intros H; inversion H; subst. now left.
  - intros H. right. auto.
Qed.

Lemma map_throwing_form_throws entries e :
  map_throwing DogTag.form_choice entries = inl e -> e = TypeError_join.
Proof.
  induction entries as [|[k v] entries IH]; simpl; [discriminate|].
  destruct (negb (JsString.eqb k (js "tags"))).
  - destruct (map_throwing _ _); [|discriminate].
    intros H; inversion H; subst. now apply IH.
  - destruct v; simpl; try (intros H; inversion H; reflexivity).
    destruct (map_throwing _ _); [|discriminate].
    intros H; inversion H; subst. now apply IH.
Qed.

(** The form cannot be built for an entry one of whose [tags] is not a
    sequence. *)
Lemma form_choices_throws (o : object) v :
  In (js "tags", v) o -> (forall ts, v <> VArr ts) ->
  DogTag.form_choices o = inl TypeError_join.
Proof.
  intros Hin Hv. unfold DogTag.form_choices, Object_entries.
  induction o as [|[k w] o IH]; [contradiction|].
  cbn [filter fst].
  destruct Hin as [E|Hin].
  - inversion E; subst. change (JsString.eqb (js "tags") (js "id")) with false.
    change (JsString.eqb (js "tags") (js "isDoggo")) with false.
    cbn [negb andb map_throwing]. unfold DogTag.form_choice.
    rewrite jseqb_refl. cbn [negb].
    destruct v as [| | |ts]; try reflexivity. now elim (Hv ts).
  - specialize (IH Hin).
    destruct (negb (JsString.eqb k (js "id")) &&
              negb (JsString.eqb k (js "isDoggo"))); [|exact IH].
    cbn [map_throwing]. rewrite IH.
    destruct (DogTag.form_choice (k, w)) as [e|c] eqn:E; [|reflexivity].
    f_equal. apply (map_throwing_form_throws [(k, w)] e).
    cbn [map_throwing]. now rewrite E.
Qed.

Lemma update_located_unrendered instance toUpdate v script :
  In (js "tags", v) toUpdate -> (forall ts, v <> VArr ts) ->
  run (catch_expected (DogTag.update_located instance toUpdate)) script =
  Some (Thrown TypeError_join, [], script).
Proof.
  intros Hin Hv. unfold DogTag.update_located, catch_expected.
  rewrite (form_choices_throws toUpdate v Hin Hv). reflexivity.
Qed.

End Unrendered.

(** X16.  The form gives its fields back as strings, and [update] puts
    them into the entry as they are: an entry updated with a string for its
    tags has that string as its [tags].  Whenever a later [delete] or
    [update] finds such an entry, it throws the [TypeError] of joining what
    is not a sequence, before any prompt of its own and without a change. *)
Theorem edited_tags_break_later_operations {ext : Externals}
    (toUpdate edited : object) (s : jsstring) :
  NoDup (map fst edited) ->
  obj_lookup edited (js "tags") = Some (VStr s) ->
  let entry := Object_assign [] [toUpdate; edited] in
  prop entry "tags" = VStr s /\
  forall a b q plain instance script trace rest,
    run (DogTag.getSingleFromList (Doc.secrets (Automerge.state instance))
           (or_empty q) DogTag.tags_options) script =
      Some (Returned (Output (Some entry)), trace, rest) ->
    (forallb truthy [a; b; q] = true ->
     run (DogTag.delete a b q) (AStr plain :: ADoc instance :: script) =
     Some (Thrown TypeError_join, loading a plain instance ++ trace, rest)) /\
    (forallb truthy [a; b] = true ->
     run (DogTag.update a b q) (AStr plain :: ADoc instance :: script) =
     Some (Thrown TypeError_join, loading a plain instance ++ trace, rest)).
Proof.
  intros Hnd Htags entry.
  assert (Hlookup : obj_lookup entry (js "tags") = Some (VStr s)).
  { unfold entry, Object_assign. cbn [fold_left].
    now rewrite (obj_lookup_assign _ _ _ Hnd), Htags. }
  assert (Hprop : prop entry "tags" = VStr s)
    by (unfold prop; now rewrite Hlookup).
  split; [exact Hprop|].
  intros a b q plain instance script trace rest Hsearch. split; intros Hargs.
  - rewrite (delete_run_search a b q plain instance script (Some entry) trace rest
               Hargs Hsearch).
    rewrite delete_located_unrendered
      by (intros ts; rewrite Hprop; discriminate).
    simpl. now rewrite app_nil_r.
  - rewrite (update_run_search a b q plain instance script (Some entry) trace rest
               Hargs Hsearch).
    rewrite (update_located_unrendered instance entry (VStr s))
      by (try (apply obj_lookup_some_in; exact Hlookup); intros ts; discriminate).
    simpl. now rewrite app_nil_r.
Qed.

Lemma edited_tags_break_later_operations_witness :
  prop edited_entry "tags" = VStr (js "email, job") /\
  run (@DogTag.delete string_matcher
         (Some (js "secrets.gpg")) (Some (js "key")) (Some (js "email, job")))
    [AStr (js "saved"); ADoc edited_doc; ABool true; ABool true] =
  Some (Thrown TypeError_join,
        loading (Some (js "secrets.gpg")) (js "saved") edited_doc ++ [],
        [ABool true; ABool true]).
Proof.
  assert (Hnd : NoDup (map fst [(js "tags", VStr (js "email, job"));
                                (js "secret", VStr (js "new"))])).
  { repeat constructor; simpl; intuition discriminate. }
  destruct (@edited_tags_break_later_operations string_matcher work_entry
              [(js "tags", VStr (js "email, job")); (js "secret", VStr (js "new"))]
              (js "email, job") Hnd eq_refl) as (Hprop & Hlater).
  split; [exact Hprop|].
  destruct (Hlater (Some (js "secrets.gpg")) (Some (js "key"))
              (Some (js "email, job")) (js "saved") edited_doc
              [ABool true; ABool true] [] [ABool true; ABool true] eq_refl)
    as (Hdelete & _).
  exact (Hdelete eq_refl).
Defined.

Section Selection.

Context {ext : Externals}.

(** In a list whose items all have a sequence for tags, the lookup of a
    rendering that some item has gives the first item that has it. *)
Lemma find_throwing_first chosen (list : list object) :
  Forall (fun item => exists ts, prop item "tags" = VArr ts) list ->
  (exists item, In item list /\ slugifyTags (prop item "tags") = inr chosen) ->
  exists before item behind,
    list = before ++ item :: behind /\
    slugifyTags (prop item "tags") = inr chosen /\
    Forall (fun it => slugifyTags (prop it "tags") <> inr chosen) before /\
    find_throwing (DogTag.renders_as chosen) list = inr (Some item).
Proof.
  induction 1 as [|x list (ts & Hx) Hall IH]; intros (item & Hin & Hitem).
  - contradiction.
  - cbn [find_throwing]. unfold DogTag.renders_as at 1. rewrite Hx. simpl.
    destruct (jseqb_spec chosen (join (js ", ") ts)) as [E|Hne].
    + exists [], x, list. rewrite Hx. simpl. subst chosen. auto.
    + destruct Hin as [->|Hin].
      * rewrite Hx in Hitem. simpl in Hitem. inversion Hitem. congruence.
      * destruct (IH (ex_intro _ item (conj Hin Hitem)))
          as (before & y & behind & -> & Hy & Hbefore & Hfind).
        exists (x :: before), y, behind. repeat split; auto.
        constructor; [|exact Hbefore].
        rewrite Hx. simpl. intros H. inversion H. congruence.
Qed.

Lemma in_renderings (results : list object) tagss chosen :
  Forall2 (fun r ts => prop r "tags" = VArr ts) results tagss ->
  In chosen (map (join (js ", ")) tagss) ->
  exists r, In r results /\ slugifyTags (prop r "tags") = inr chosen.
Proof.
  induction 1 as [|r ts results tagss Hr _ IH]; simpl; [contradiction|].
  intros [E|Hin].
  - exists r. split; [now left|]. rewrite Hr. simpl. now rewrite E.
  - destruct (IH Hin) as (r' & Hin' & Hr'). exists r'. auto.
Qed.

End Selection.

(** X17.  When the candidates that Fuse answers are items of the list, and
    the items of the list all have a sequence for tags, the reply to the
    selection prompt, being one of the choices shown, always resolves to an
    entry, never to [undefined]: the first item of the list whose joined tags
    are the reply. *)
Theorem selection_resolves {ext : Externals}
    (list : list object) query opts tagss chosen rest :
  incl (Fuse_search list opts query) list ->
  1 < List.length (Fuse_search list opts query) ->
  Forall (fun item => exists ts, prop item "tags" = VArr ts) list ->
  Forall2 (fun r ts => prop r "tags" = VArr ts) (Fuse_search list opts query) tagss ->
  In chosen (map (join (js ", ")) tagss) ->
  exists before item behind,
    run (DogTag.getSingleFromList list query opts) (AStr chosen :: rest) =
      Some (Returned (Output (Some item)),
            [ObsSelect (js "Choose from the list") (map (join (js ", ")) tagss)],
            rest) /\
    list = before ++ item :: behind /\
    slugifyTags (prop item "tags") = inr chosen /\
    Forall (fun it => slugifyTags (prop it "tags") <> inr chosen) before.
Proof.
  intros Hincl Hlen Hall Htags Hchosen.
  destruct (in_renderings _ _ _ Htags Hchosen) as (r & Hr & Hrender).
  destruct (find_throwing_first chosen list Hall
              (ex_intro _ r (conj (Hincl r Hr) Hrender)))
    as (before & item & behind & Hlist & Hitem & Hbefore & Hfind).
  exists before, item, behind.
  rewrite (getSingleFromList_many list query opts tagss _ Hlen Htags).
  unfold chosen_outcome. rewrite Hfind. auto.
Qed.

Lemma selection_resolves_witness :
  exists before item behind,
    run (@DogTag.getSingleFromList exact_matcher
           [work_entry; twin_a; twin_b] (js "work") DogTag.tags_options)
        [AStr (js "work")] =
      Some (Returned (Output (Some item)),
            [ObsSelect (js "Choose from the list")
               [js "email, work"; js "work"; js "work"]], []) /\
    [work_entry; twin_a; twin_b] = before ++ item :: behind /\
    slugifyTags (prop item "tags") = inr (js "work") /\
    Forall (fun it => slugifyTags (prop it "tags") <> inr (js "work")) before.
Proof.
  assert (Hall : Forall (fun item : object => exists ts, prop item "tags" = VArr ts)
                   [work_entry; twin_a; twin_b]).
  { repeat constructor; eexists; reflexivity. }
  assert (Htags : Forall2 (fun (r : object) ts => prop r "tags" = VArr ts)
                    [work_entry; twin_a; twin_b]
                    [[js "email"; js "work"]; [js "work"]; [js "work"]])
    by (repeat constructor).
  assert (Hlen : 1 < 3) by (apply le_n_S, le_n_S, le_0_n).
  exact (@selection_resolves exact_matcher
           [work_entry; twin_a; twin_b] (js "work") DogTag.tags_options
           [[js "email"; js "work"]; [js "work"]; [js "work"]] (js "work") []
           (fun x H => H) Hlen Hall Htags
           (or_intror (or_introl eq_refl))).
Defined.

(** X18.  When the entry that [delete] has found is the first of [secrets]
    with its [id], a string, and both confirmations are answered yes, the
    document returned has that entry taken out and all the others as they
    were, in their order, wherever in the sequence the entry was. *)
Theorem delete_removes_located {ext : Externals}
    a b q plain instance script trace rest toDelete before behind ts id :
  forallb truthy [a; b; q] = true ->
  run (DogTag.getSingleFromList (Doc.secrets (Automerge.state instance))
         (or_empty q) DogTag.tags_options) script =
    Some (Returned (Output (Some toDelete)), trace,
          ABool true :: ABool true :: rest) ->
  Doc.secrets (Automerge.state instance) = before ++ toDelete :: behind ->
  forallb (fun item => negb (DogTag.same_id toDelete item)) before = true ->
  prop toDelete "id" = VStr id ->
  prop toDelete "tags" = VArr ts ->
  exists deleted trace',
    run (DogTag.delete a b q) (AStr plain :: ADoc instance :: script) =
      Some (Returned (Output deleted), trace', rest) /\
    Doc.secrets (Automerge.state deleted) = before ++ behind.
Proof.
  intros Hargs Hsearch Hsecrets Hfirst Hid Htags.
  rewrite (delete_run_search a b q plain instance script (Some toDelete) trace _
             Hargs Hsearch).
  rewrite (delete_located_run instance toDelete ts _ Htags). cbn [after].
  do 2 eexists. split; [reflexivity|].
  change (splice (Doc.secrets (Automerge.state instance))
            (findIndex (DogTag.same_id toDelete)
               (Doc.secrets (Automerge.state instance))) 1 [] = before ++ behind).
  rewrite Hsecrets, findIndex_first; [| exact Hfirst |].
  - exact (splice_at before toDelete behind []).
  - unfold DogTag.same_id. rewrite Hid. apply jseqb_refl.
Qed.

Lemma delete_removes_located_witness :
  exists deleted trace',
    run (@DogTag.delete exact_matcher
           (Some (js "secrets.gpg")) (Some (js "key")) (Some (js "work")))
      [AStr (js "saved"); ADoc twins_list_doc; AStr (js "work");
       ABool true; ABool true] =
      Some (Returned (Output deleted), trace', []) /\
    Doc.secrets (Automerge.state deleted) = [] ++ [twin_b].
Proof.
  exact (@delete_removes_located exact_matcher
           (Some (js "secrets.gpg")) (Some (js "key")) (Some (js "work"))
           (js "saved") twins_list_doc
           [AStr (js "work"); ABool true; ABool true]
           [ObsSelect (js "Choose from the list") [js "work"; js "work"]]
           [] twin_a [] [twin_b] [js "work"] (js "id-a")
           eq_refl eq_refl eq_refl eq_refl eq_refl eq_refl).
Defined.

(** X19.  [update] merges the edited fields over the entry it found.  When
    that entry is the first of [secrets] with its [id], a string, and the
    form gives back a value for every field of the entry that holds an array,
    [update] returns a document in which the copy stands in the place of the
    entry, all others as they were; in the copy, a field that the form gave
    back has the value given back, and every other field has the value it
    had; the document has the reading of the clock as its [updatedAt] and
    the length of the history of the instance, plus one, as its version.
    When the form leaves a field that holds an array without a value, the
    draft refuses the copy and [update] throws. *)
Theorem update_merges_fields {ext : Externals}
    a b q plain instance script trace rest toUpdate before behind ts id
    edited now :
  forallb truthy [a; b] = true ->
  run (DogTag.getSingleFromList (Doc.secrets (Automerge.state instance))
         (or_empty q) DogTag.tags_options) script =
    Some (Returned (Output (Some toUpdate)), trace,
          AObj edited :: ANum now :: rest) ->
  Doc.secrets (Automerge.state instance) = before ++ toUpdate :: behind ->
  forallb (fun item => negb (DogTag.same_id toUpdate item)) before = true ->
  NoDup (map fst toUpdate) ->
  NoDup (map fst edited) ->
  prop toUpdate "id" = VStr id ->
  prop toUpdate "tags" = VArr ts ->
  let replacement := Object_assign [] [toUpdate; edited] in
  if DogTag.keeps_document_array toUpdate edited
  then
    exists trace',
      run (DogTag.update a b q) (AStr plain :: ADoc instance :: script) =
        Some (Thrown Automerge.TypeError_owned, trace', ANum now :: rest) /\
      changes trace' = changes trace
  else
    exists updated trace',
      run (DogTag.update a b q) (AStr plain :: ADoc instance :: script) =
        Some (Returned (Output (inr updated)), trace', rest) /\
      Doc.secrets (Automerge.state updated) = before ++ replacement :: behind /\
      Doc.updatedAt (Automerge.state updated) = now /\
      Doc.version (Automerge.state updated) =
        (Z.of_nat (List.length (Automerge.getHistory instance)) + 1)%Z /\
      (forall key v,
         obj_lookup edited key = Some v -> obj_lookup replacement key = Some v) /\
      (forall key,
         obj_lookup edited key = None ->
         obj_lookup replacement key = obj_lookup toUpdate key).
Proof.
  intros Hargs Hsearch Hsecrets Hfirst Hnd Hnd' Hid Htags replacement.
  destruct (form_choices_defined toUpdate ts Hnd Htags) as [choices Hchoices].
  rewrite (update_run_search a b q plain instance script (Some toUpdate) trace _
             Hargs Hsearch).
  destruct (DogTag.keeps_document_array toUpdate edited) eqn:Hkeeps.
  - rewrite (update_located_refused instance toUpdate ts choices edited
               (ANum now :: rest) Hchoices Htags Hkeeps). cbn [after].
    eexists. split; [reflexivity|].
    rewrite !changes_app. unfold loading. cbn. lia.
  - rewrite (update_located_run instance toUpdate ts choices edited now rest
               Hchoices Htags Hkeeps). cbn [after].
    do 2 eexists. split; [reflexivity|].
    refine (conj _ (conj eq_refl (conj eq_refl (conj _ _)))).
    + change (splice (Doc.secrets (Automerge.state instance))
                (findIndex (DogTag.same_id toUpdate)
                   (Doc.secrets (Automerge.state instance))) 1 [replacement] =
              before ++ replacement :: behind).
      rewrite Hsecrets, findIndex_first; [| exact Hfirst |].
      * exact (splice_at before toUpdate behind [_]).
      * unfold DogTag.same_id. rewrite Hid. apply jseqb_refl.
    + intros key v Hkey. unfold replacement, Object_assign. cbn [fold_left].
      now rewrite (obj_lookup_assign _ _ _ Hnd'), Hkey.
    + intros key Hkey. unfold replacement, Object_assign. cbn [fold_left].
      rewrite (obj_lookup_assign_absent _ _ _ Hkey).
      rewrite (obj_lookup_assign _ _ _ Hnd).
      now destruct (obj_lookup toUpdate key).
Qed.

Lemma update_merges_fields_witness :
  exists updated trace',
    run (@DogTag.update exact_matcher
           (Some (js "secrets.gpg")) (Some (js "key")) (Some (js "bank")))
      [AStr (js "saved"); ADoc bank_doc; AObj bank_reply; ANum 2000] =
      Some (Returned (Output (inr updated)), trace', []) /\
    Doc.secrets (Automerge.state updated) =
      [twin_a] ++
      [(js "tags", VStr (js "bank")); (js "secret", VStr (js "5678"));
       (js "id", VStr (js "id-2"))] :: [work_entry] /\
    Doc.updatedAt (Automerge.state updated) = 2000%Z /\
    Doc.version (Automerge.state updated) = 5%Z.
Proof.
  assert (Hnd : NoDup (map fst bank_entry)).
  { repeat constructor; simpl; intuition discriminate. }
  assert (Hnd' : NoDup (map fst bank_reply)).
  { repeat constructor; simpl; intuition discriminate. }
  pose proof (@update_merges_fields exact_matcher
                (Some (js "secrets.gpg")) (Some (js "key")) (Some (js "bank"))
                (js "saved") bank_doc
                [AObj bank_reply; ANum 2000] [] []
                bank_entry [twin_a] [work_entry] [js "bank"] (js "id-2")
                bank_reply 2000%Z
                eq_refl eq_refl eq_refl eq_refl Hnd Hnd' eq_refl eq_refl)
    as (updated & trace' & Hrun & Hsecrets & Hat & Hversion & _).
  exists updated, trace'.
  exact (conj Hrun (conj Hsecrets (conj Hat Hversion))).
Defined.
